(** * Product manager REST API: handlers, validation chains, CORS and boot

    A shallow embedding of [src/handlers/product.ts], [src/router.ts] and
    [src/server.ts].  The database reached through the ORM is an explicit
    state threaded through every handler; a handler is a function from the
    request to a computation that either answers with a status and a JSON
    payload or rejects (the [await] threw and nothing caught it). *)

From Stdlib Require Import ZArith QArith Qcanon Lia Ascii String.
From Stdlib Require Import DecimalString DecimalZ.
From stdpp Require Import gmap strings list sorting.

Local Open Scope string_scope.
Local Open Scope Z_scope.

(** ** JavaScript values carried by a parsed JSON body *)

Module JS.

(** A JavaScript number: a finite double is the rational it denotes, in
    lowest terms, so that two numbers are equal exactly when they are the
    same value. *)
Inductive Number :=
| NaN
| Num (q : Qc)
| PosInfinity
| NegInfinity.

#[global] Instance Number_eq_dec : EqDecision Number.
Proof. solve_decision. Defined.

(** The number an integer is. *)
Definition whole (z : Z) : Number := Num (Q2Qc (inject_Z z)).

(** The scalar values [express.json()] leaves in a body field.  A field that
    is absent from the object reads as [undefined]: [body !! f = None]. *)
Inductive Value :=
| JNull
| JBool (b : bool)
| JNum (n : Number)
| JStr (s : string).

(** [n > 0] on numbers. *)
Definition gt_zero (n : Number) : bool :=
  match n with
  | NaN => false
  | Num q => negb (Qle_bool q 0)
  | PosInfinity => true
  | NegInfinity => false
  end.

(** [n <= 0] on numbers. *)
Definition le_zero (n : Number) : bool :=
  match n with
  | NaN => false
  | Num q => Qle_bool q 0
  | PosInfinity => false
  | NegInfinity => true
  end.

(** JavaScript's [String(n)] and [Number(s)]; the handlers use neither, the
    validators read fields through them. *)
Class Conversions := {
  number_to_string : Number → string;
  string_to_number : string → Number
}.

(** [Boolean(s)] for what [process.env] and an [Origin] header can hold:
    [undefined] and the empty string are falsy, every other string truthy. *)
Definition truthy (s : option string) : bool :=
  match s with
  | None => false
  | Some s => negb (String.eqb s "")
  end.

End JS.

Import JS.

(** ** The product entity and the table behind it *)

(** Modelled from the spec: the entity declaration [models/Product] is not
    among the sources; its four attributes are those of the specification's
    data model and of the swagger schema in [router.ts].  A [Product] is what
    an instance holds in its [dataValues]. *)
Record Product := mkProduct {
  id : Z;
  name : string;
  price : Number;
  availability : bool
}.

(** A row of the [products] table, found under its primary key. *)
Record Row := mkRow {
  row_name : string;
  row_price : Number;
  row_availability : bool
}.

Definition instance (k : Z) (r : Row) : Product :=
  mkProduct k (row_name r) (row_price r) (row_availability r).

Definition row_of (p : Product) : Row :=
  mkRow (name p) (price p) (availability p).

#[global] Instance Product_eq_dec : EqDecision Product.
Proof. solve_decision. Defined.

#[global] Instance Row_eq_dec : EqDecision Row.
Proof. solve_decision. Defined.

(** The table keyed by primary key, and the last value handed out by the
    key's sequence. *)
Record Store := mkStore {
  rows : gmap Z Row;
  seq : Z
}.

(** The ORM methods the handlers call, in call order. *)
Inductive OrmCall :=
| FindAll
| FindByPk (pk : string)
| Create
| Update
| Save
| Destroy.

(** The statements that write, as they reach the database. *)
Inductive Statement :=
| SQL_INSERT
| SQL_UPDATE
| SQL_DELETE.

Record World := mkWorld {
  store : Store;
  calls : list OrmCall;
  sent : list Statement
}.

Definition is_write (c : OrmCall) : bool :=
  match c with
  | FindAll | FindByPk _ => false
  | Create | Update | Save | Destroy => true
  end.

(** Number of calls in a call log to a method that writes; the statements
    that reach the database are those of [sent]. *)
Definition writes (l : list OrmCall) : nat := length (filter is_write l).

Definition empty_store : Store := mkStore ∅ 0.
Definition boot : World := mkWorld empty_store [] [].

(** ** Awaited ORM calls *)

Inductive SqlError :=
| UniqueViolation
| NotNullViolation (column : string)
| InvalidInput (column : string)
| OutOfRange (column : string).

Inductive Result (A : Type) :=
| Ok (a : A)
| Rejected (e : SqlError).
Arguments Ok {A} a.
Arguments Rejected {A} e.

(** An [async] computation over the database. *)
Definition Async (A : Type) : Type := World → World * Result A.

#[global] Instance Async_ret : MRet Async := λ A a w, (w, Ok a).

(** [await c] followed by the rest of the function body: a rejection of [c]
    rejects the whole computation. *)
#[global] Instance Async_bind : MBind Async := λ A B k c w,
  match c w with
  | (w', Ok a) => k a w'
  | (w', Rejected e) => (w', Rejected e)
  end.

Definition log (c : OrmCall) (w : World) : World :=
  mkWorld (store w) (calls w ++ [c]) (sent w).

Definition send (st : Statement) (w : World) : World :=
  mkWorld (store w) (calls w) (sent w ++ [st]).

Definition with_rows (m : gmap Z Row) (w : World) : World :=
  mkWorld (mkStore m (seq (store w))) (calls w) (sent w).

(** *** Text read as an integer *)

Module Text.

Definition is_digit (c : ascii) : bool :=
  (48 <=? nat_of_ascii c)%nat && (nat_of_ascii c <=? 57)%nat.

Definition is_sign (c : ascii) : bool :=
  Ascii.eqb c "+" || Ascii.eqb c "-".

(** Space, tab, line feed, vertical tab, form feed, carriage return. *)
Definition is_space (c : ascii) : bool :=
  (nat_of_ascii c =? 32)%nat
  || ((9 <=? nat_of_ascii c)%nat && (nat_of_ascii c <=? 13)%nat).

Fixpoint all_digits (s : string) : bool :=
  match s with
  | EmptyString => true
  | String c s' => is_digit c && all_digits s'
  end.

Fixpoint all_spaces (s : string) : bool :=
  match s with
  | EmptyString => true
  | String c s' => is_space c && all_spaces s'
  end.

(** The digits [s] starts with. *)
Fixpoint leading_digits (s : string) : string :=
  match s with
  | String c s' => if is_digit c then String c (leading_digits s') else ""
  | EmptyString => ""
  end.

(** Drops the digits [s] starts with. *)
Fixpoint skip_digits (s : string) : string :=
  match s with
  | String c s' => if is_digit c then skip_digits s' else s
  | EmptyString => s
  end.

(** Drops the blanks [s] starts with. *)
Fixpoint skip_spaces (s : string) : string :=
  match s with
  | String c s' => if is_space c then skip_spaces s' else s
  | EmptyString => s
  end.

(** Digits, then nothing but blanks: the number the digits write. *)
Definition natural (s : string) : option Z :=
  if all_spaces (skip_digits s)
  then Z.of_uint <$> NilZero.uint_of_string (leading_digits s)
  else None.

(** The integer the database reads in a text: blanks, an optional sign,
    decimal digits, blanks. *)
Definition integer (s : string) : option Z :=
  match skip_spaces s with
  | String c u =>
      if Ascii.eqb c "-" then Z.opp <$> natural u
      else if Ascii.eqb c "+" then natural u
      else natural (String c u)
  | EmptyString => None
  end.

End Text.

(** Modelled from the spec: the range of the key column, declared in
    [models/Product], which is not among the sources.  The id is an integer
    the database generates; the column is taken to be the 32-bit integer
    the ORM gives a key by default. *)
Definition key_min : Z := -2147483648.
Definition key_max : Z := 2147483647.

Definition in_key_range (k : Z) : bool := (key_min <=? k) && (k <=? key_max).

(** The primary key a path parameter denotes: the integer the database reads
    in it, when the key column can hold it. *)
Definition pk_of_param (s : string) : option Z :=
  match Text.integer s with
  | Some k => if in_key_range k then Some k else None
  | None => None
  end.

(** What the database answers a text it cannot take as a key. *)
Definition id_error (s : string) : SqlError :=
  match Text.integer s with
  | Some _ => OutOfRange "id"
  | None => InvalidInput "id"
  end.

(** The decimal writing of an integer. *)
Definition param_of_pk (k : Z) : string := NilZero.string_of_int (Z.to_int k).

(** *** Column conversions

    A value is taken when its JSON type is the column's; the casts the
    driver and the database apply to values of another type are not part of
    this model, which refuses them. *)

(** The integer a number is, if it is one. *)
Definition integral (q : Qc) : option Z :=
  if decide (Qden q = 1%positive) then Some (Qnum q) else None.

(** [None] asks the sequence for the next key. *)
Definition col_id (body : gmap string Value) : Result (option Z) :=
  match body !! "id" with
  | None | Some JNull => Ok None
  | Some (JNum (Num q)) =>
      match integral q with
      | Some k => if in_key_range k then Ok (Some k) else Rejected (OutOfRange "id")
      | None => Rejected (InvalidInput "id")
      end
  | Some _ => Rejected (InvalidInput "id")
  end.

Definition col_name (v : option Value) : Result string :=
  match v with
  | None | Some JNull => Rejected (NotNullViolation "name")
  | Some (JStr s) => Ok s
  | Some _ => Rejected (InvalidInput "name")
  end.

Definition col_price (v : option Value) : Result Number :=
  match v with
  | None | Some JNull => Rejected (NotNullViolation "price")
  | Some (JNum n) => Ok n
  | Some _ => Rejected (InvalidInput "price")
  end.

(** An absent value takes [dflt]. *)
Definition col_availability (dflt : bool) (v : option Value) : Result bool :=
  match v with
  | None => Ok dflt
  | Some JNull => Rejected (NotNullViolation "availability")
  | Some (JBool b) => Ok b
  | Some _ => Rejected (InvalidInput "availability")
  end.

(** *** The model's methods *)

Module Model.

#[local] Instance id_desc_dec : RelDecision (λ p q : Product, id q ≤ id p).
Proof. intros p q. apply Z_le_dec. Defined.

(** [Product.findAll({order: [['id', 'DESC']]})] *)
Definition findAll : Async (list Product) := λ w,
  let w := log FindAll w in
  (w, Ok (merge_sort (λ p q : Product, id q ≤ id p)
            ((λ kr, instance kr.1 kr.2) <$> map_to_list (rows (store w))))).

(** An instance of the model: the values it holds, and whether one of them
    was set to something else since it was read or last persisted. *)
Record Instance := mkInstance {
  dataValues : Product;
  changed : bool
}.

(** [Product.findByPk(id)]: the instance, or [null]. *)
Definition findByPk (pk : string) : Async (option Instance) := λ w,
  let w := log (FindByPk pk) w in
  match pk_of_param pk with
  | None => (w, Rejected (id_error pk))
  | Some k =>
      (w, Ok ((λ r, mkInstance (instance k r) false) <$> rows (store w) !! k))
  end.

(** The values a new instance is built from: every attribute of the model
    found in the object; an absent [availability] takes the default. *)
Definition build (body : gmap string Value) : Result (option Z * Row) :=
  match col_id body, col_name (body !! "name"), col_price (body !! "price"),
        col_availability true (body !! "availability") with
  | Ok k, Ok n, Ok p, Ok a => Ok (k, mkRow n p a)
  | Rejected e, _, _, _ | _, Rejected e, _, _
  | _, _, Rejected e, _ | _, _, _, Rejected e => Rejected e
  end.

(** The row goes in under key [k], unless the key is taken. *)
Definition insert_row (k : Z) (r : Row) : Async Product := λ w,
  match rows (store w) !! k with
  | Some _ => (w, Rejected UniqueViolation)
  | None => (with_rows (<[k := r]> (rows (store w))) w, Ok (instance k r))
  end.

(** [nextval]: the sequence advances whether or not the insert succeeds; it
    fails once the key column cannot hold the next value. *)
Definition nextval : Async Z := λ w,
  let k := seq (store w) + 1 in
  if in_key_range k
  then (mkWorld (mkStore (rows (store w)) k) (calls w) (sent w), Ok k)
  else (w, Rejected (OutOfRange "id")).

(** [Product.create(values)]: one [SQL_INSERT], answered with the row as the
    database returns it. *)
Definition create (body : gmap string Value) : Async Product := λ w,
  let w := send SQL_INSERT (log Create w) in
  match build body with
  | Rejected e => (w, Rejected e)
  | Ok (Some k, r) => insert_row k r w
  | Ok (None, r) => (k ← nextval; insert_row k r) w
  end.

(** [instance.set(values)]: attributes present in the object overwrite the
    instance's; the primary key of a persisted instance is not reassigned. *)
Definition set (p : Product) (body : gmap string Value) : Result Product :=
  match (match body !! "name" with None => Ok (name p) | v => col_name v end),
        (match body !! "price" with None => Ok (price p) | v => col_price v end),
        col_availability (availability p) (body !! "availability") with
  | Ok n, Ok x, Ok a => Ok (mkProduct (id p) n x a)
  | Rejected e, _, _ | _, Rejected e, _ | _, _, Rejected e => Rejected e
  end.

(** The instance once it holds [p]: it has changed if [p] is not what it
    held. *)
Definition assign (i : Instance) (p : Product) : Instance :=
  mkInstance p (changed i || bool_decide (p ≠ dataValues i)).

(** [UPDATE ... WHERE id = p.id] *)
Definition update_row (p : Product) (w : World) : World :=
  match rows (store w) !! id p with
  | Some _ => with_rows (<[id p := row_of p]> (rows (store w))) w
  | None => w
  end.

(** What [save] does to a persisted instance: nothing when no value has
    changed, otherwise one [SQL_UPDATE], after which the instance is clean. *)
Definition persist (i : Instance) (w : World) : World * Instance :=
  if changed i
  then (update_row (dataValues i) (send SQL_UPDATE w), mkInstance (dataValues i) false)
  else (w, i).

(** [instance.save()] *)
Definition save (i : Instance) : Async Instance := λ w,
  let (w, i) := persist i (log Save w) in (w, Ok i).

(** [instance.update(values)]: [set], then what [save] does. *)
Definition update (i : Instance) (body : gmap string Value) : Async Instance :=
  λ w,
  let w := log Update w in
  match set (dataValues i) body with
  | Rejected e => (send SQL_UPDATE w, Rejected e)
  | Ok p => let (w, i) := persist (assign i p) w in (w, Ok i)
  end.

(** [instance.destroy()]: one [SQL_DELETE]. *)
Definition destroy (i : Instance) : Async unit := λ w,
  let w := send SQL_DELETE (log Destroy w) in
  (with_rows (delete (id (dataValues i)) (rows (store w))) w, Ok tt).

End Model.

(** ** Requests and responses *)

Record Request := mkRequest {
  params_id : string;
  body : gmap string Value
}.

Record FieldError := mkFieldError {
  field : string;
  msg : string
}.

Inductive Payload :=
| Data (p : Product)
| DataList (ps : list Product)
| DataText (s : string)
| Error (e : string)
| Errors (es : list FieldError).

Record Response := mkResponse {
  status : Z;
  json : Payload
}.

(** [res.json(x)] answers 200; [res.status(c).json(x)] answers [c]. *)
Definition res_json (x : Payload) : Response := mkResponse 200 x.
Definition res_status_json (c : Z) (x : Payload) : Response := mkResponse c x.

Definition not_found : Response :=
  res_status_json 404 (Error "Producto no encontrado").

(** ** Handlers ([src/handlers/product.ts]) *)

Definition getProducts (req : Request) : Async Response :=
  products ← Model.findAll;
  mret (res_json (DataList products)).

Definition getProductById (req : Request) : Async Response :=
  product ← Model.findByPk (params_id req);
  match product with
  | None => mret not_found
  | Some product => mret (res_json (Data (Model.dataValues product)))
  end.

Definition createProduct (req : Request) : Async Response :=
  product ← Model.create (body req);
  mret (res_status_json 201 (Data product)).

Definition updateProduct (req : Request) : Async Response :=
  product ← Model.findByPk (params_id req);
  match product with
  | None => mret not_found
  | Some product =>
      product ← Model.update product (body req);
      product ← Model.save product;
      mret (res_json (Data (Model.dataValues product)))
  end.

Definition set_availability (p : Product) (a : bool) : Product :=
  mkProduct (id p) (name p) (price p) a.

(** [product.availability = a] *)
Definition assign_availability (i : Model.Instance) (a : bool) : Model.Instance :=
  Model.assign i (set_availability (Model.dataValues i) a).

Definition updateAvailability (req : Request) : Async Response :=
  product ← Model.findByPk (params_id req);
  match product with
  | None => mret not_found
  | Some product =>
      let product :=
        assign_availability product
          (negb (availability (Model.dataValues product))) in
      product ← Model.save product;
      mret (res_json (Data (Model.dataValues product)))
  end.

Definition deleteProduct (req : Request) : Async Response :=
  product ← Model.findByPk (params_id req);
  match product with
  | None => mret not_found
  | Some product =>
      _ ← Model.destroy product;
      mret (res_json (DataText "Producto Eliminado"))
  end.

(** The instance [findByPk] hands over for the row under key [k]. *)
Definition found (k : Z) (r : Row) : Model.Instance :=
  Model.mkInstance (instance k r) false.

(** Every key stored is one the key column can hold. *)
Definition keys_in_range (w : World) : Prop :=
  ∀ k, k ∈ dom (rows (store w)) → in_key_range k = true.

(** ** Validation chains ([src/router.ts]) *)

Module Validator.

Definition unsigned (s : string) : string :=
  match s with
  | String c s' => if Text.is_sign c then s' else s
  | EmptyString => s
  end.

Definition nonempty (s : string) : bool := negb (String.eqb s "").

(** An optional sign, then digits, or optional digits, a dot and digits. *)
Definition numeric (s : string) : bool :=
  let u := unsigned s in
  match Text.skip_digits u with
  | EmptyString => nonempty u
  | String c frac => Ascii.eqb c "." && nonempty frac && Text.all_digits frac
  end.

(** An optional sign, then digits; leading zeroes are taken. *)
Definition int (s : string) : bool :=
  let u := unsigned s in
  nonempty u && Text.all_digits u.

(** The string is one of [true], [false], [1], [0]. *)
Definition boolean (s : string) : bool :=
  bool_decide (s ∈ ["true"; "false"; "1"; "0"]).

End Validator.

Inductive Predicate :=
| notEmpty
| isNumeric
| isInt
| isBoolean
| custom (f : option Value → bool).

Record Rule := withMessage {
  predicate : Predicate;
  message : string
}.

Inductive Location := InParams | InBody.

Record Chain := mkChain {
  location : Location;
  path : string;
  rules : list Rule
}.

Definition param (f : string) (rs : list Rule) : Chain := mkChain InParams f rs.
Definition body_ (f : string) (rs : list Rule) : Chain := mkChain InBody f rs.

Section Routes.

Context `{Conversions}.

(** The validators read a field through its string form: the empty string
    for [undefined], [null] and [NaN]. *)
Definition toString (v : option Value) : string :=
  match v with
  | None | Some JNull | Some (JNum NaN) => ""
  | Some (JBool true) => "true"
  | Some (JBool false) => "false"
  | Some (JNum n) => number_to_string n
  | Some (JStr s) => s
  end.

(** [value > 0] *)
Definition greater_than_zero (value : option Value) : bool :=
  match value with
  | None => false
  | Some JNull => false
  | Some (JBool b) => b
  | Some (JNum n) => gt_zero n
  | Some (JStr s) => gt_zero (string_to_number s)
  end.

(** [value <= 0], the specification's condition on a price, read the way
    [value > 0] is. *)
Definition less_or_equal_zero (value : option Value) : bool :=
  match value with
  | None => false
  | Some JNull => true
  | Some (JBool b) => negb b
  | Some (JNum n) => le_zero n
  | Some (JStr s) => le_zero (string_to_number s)
  end.

Definition passes (c : Predicate) (v : option Value) : bool :=
  match c with
  | notEmpty => Validator.nonempty (toString v)
  | isNumeric => Validator.numeric (toString v)
  | isInt => Validator.int (toString v)
  | isBoolean => Validator.boolean (toString v)
  | custom f => f v
  end.

Definition select (req : Request) (c : Chain) : option Value :=
  match location c with
  | InParams => if String.eqb (path c) "id" then Some (JStr (params_id req)) else None
  | InBody => body req !! path c
  end.

(** Every rule of a chain runs; each one that fails adds its message. *)
Definition run_chain (req : Request) (c : Chain) : list FieldError :=
  let v := select req c in
  (λ r, mkFieldError (path c) (message r))
    <$> filter (λ r, passes (predicate r) v = false) (rules c).

Definition validationResult (req : Request) (cs : list Chain) : list FieldError :=
  cs ≫= run_chain req.

(** Modelled from the spec: [handleInputErrors] of [src/middleware] is not
    among the sources.  If any rule failed the request ends with status 400
    and the collected errors before the handler runs; otherwise the request
    passes through unchanged. *)
Definition handleInputErrors (errors : list FieldError)
    (next : Async Response) : Async Response :=
  match errors with
  | [] => next
  | _ => mret (res_status_json 400 (Errors errors))
  end.

Definition route (cs : list Chain) (handler : Request → Async Response)
    (req : Request) : Async Response :=
  handleInputErrors (validationResult req cs) (handler req).

Definition id_chain : Chain :=
  param "id" [withMessage isInt "ID no valido"].

Definition name_chain : Chain :=
  body_ "name" [withMessage notEmpty "El campo nombre no puede estar vacio"].

Definition price_chain : Chain :=
  body_ "price"
    [withMessage isNumeric "Valor no valido";
     withMessage notEmpty "El campo precio no puede estar vacio";
     withMessage (custom greater_than_zero) "Precio no valido"].

Definition availability_chain : Chain :=
  body_ "availability"
    [withMessage isBoolean "Valor de disponibilidad no valido"].

(** [router.get('/', ...)] *)
Definition router_get : Request → Async Response := getProducts.

(** [router.get('/:id', ...)] *)
Definition router_get_id : Request → Async Response :=
  route [id_chain] getProductById.

(** [router.post('/', ...)] *)
Definition router_post : Request → Async Response :=
  route [name_chain; price_chain] createProduct.

(** [router.put('/:id', ...)] *)
Definition router_put : Request → Async Response :=
  route [id_chain; name_chain; price_chain; availability_chain] updateProduct.

(** [router.patch('/:id', ...)] *)
Definition router_patch : Request → Async Response :=
  route [id_chain] updateAvailability.

(** [router.delete('/:id', ...)] *)
Definition router_delete : Request → Async Response :=
  route [id_chain] deleteProduct.

End Routes.

(** ** Server shell ([src/server.ts]) *)

Module Server.

(** *** Boot: [connectDB] *)

Inductive Event :=
| Authenticate
| Sync
| ConsoleLog (line : string).

(** What the database session does when asked, and whether the terminal
    takes colours. *)
Record Session := mkSession {
  authenticate_resolves : bool;
  sync_resolves : bool;
  colors_enabled : bool
}.

Inductive Completion (A : Type) :=
| Returned (a : A)
| Threw (error : string).
Arguments Returned {A} a.
Arguments Threw {A} error.

(** Outcome of running a function body: the events it caused in order, the
    promises it left floating that reject later, and how it completed. *)
Record Ran (A : Type) := mkRan {
  events : list Event;
  unhandled : list string;
  completion : Completion A
}.
Arguments mkRan {A} events unhandled completion.
Arguments events {A} r.
Arguments unhandled {A} r.
Arguments completion {A} r.

Definition IO (A : Type) : Type := Session → Ran A.

#[global] Instance IO_ret : MRet IO := λ A a _, mkRan [] [] (Returned a).

#[global] Instance IO_bind : MBind IO := λ A B k c s,
  let r := c s in
  match completion r with
  | Returned a =>
      let r' := k a s in
      mkRan (events r ++ events r') (unhandled r ++ unhandled r') (completion r')
  | Threw e => mkRan (events r) (unhandled r) (Threw e)
  end.

(** [try { body } catch (error) { handler }] *)
Definition try_catch {A} (body : IO A) (handler : string → IO A) : IO A := λ s,
  let r := body s in
  match completion r with
  | Returned a => r
  | Threw e =>
      let r' := handler e s in
      mkRan (events r ++ events r') (unhandled r ++ unhandled r') (completion r')
  end.

Definition connection_refused : string := "SequelizeConnectionError".

(** [await db.authenticate()] *)
Definition await_db_authenticate : IO unit := λ s,
  mkRan [Authenticate] []
    (if authenticate_resolves s then Returned tt else Threw connection_refused).

(** [db.sync()] with its promise dropped. *)
Definition db_sync : IO unit := λ s,
  mkRan [Sync]
    (if sync_resolves s then [] else [connection_refused])
    (Returned tt).

Definition console_log (line : string) : IO unit := λ _,
  mkRan [ConsoleLog line] [] (Returned tt).

Definition esc (code : string) : string :=
  String (ascii_of_nat 27) ("[" ++ code ++ "m").

(** The text between the escape codes of red and bold, or the bare text when
    colours are off. *)
Definition red_bold (enabled : bool) (s : string) : string :=
  if enabled then esc "31" ++ esc "1" ++ s ++ esc "22" ++ esc "39" else s.

(** [colors.red.bold(s)] *)
Definition colors_red_bold (s : string) : IO string := λ ses,
  mkRan [] [] (Returned (red_bold (colors_enabled ses) s)).

Definition connect_error : string :=
  "Hubo un error al conectarse a la base de datos".

Definition connectDB : IO unit :=
  try_catch
    (_ ← await_db_authenticate; db_sync)
    (λ error, line ← colors_red_bold connect_error; console_log line).

(** *** CORS: [corsOptions.origin] *)

Record Env := mkEnv {
  FRONTEND_URL : option string;
  API_URL : option string
}.

Inductive Callback :=
| Allowed
| Failed (error : string).

Definition allowedOrigins (env : Env) : list (option string) :=
  filter (λ o, truthy o = true) [FRONTEND_URL env; API_URL env].

Definition includes (l : list (option string)) (o : option string) : bool :=
  bool_decide (o ∈ l).

Definition origin (env : Env) (origin : option string) : Callback :=
  if negb (truthy origin) || includes (allowedOrigins env) origin
  then Allowed
  else Failed "Error de CORS".

End Server.

(** ** Requests served in sequence *)

(** The row with its availability flipped. *)
Definition toggled (r : Row) : Row :=
  mkRow (row_name r) (row_price r) (negb (row_availability r)).

(** The six method and path pairs of the router. *)
Inductive Endpoint := GET_all | GET_one | POST | PUT | PATCH | DELETE.

Definition handler (e : Endpoint) : Request → Async Response :=
  match e with
  | GET_all => getProducts
  | GET_one => getProductById
  | POST => createProduct
  | PUT => updateProduct
  | PATCH => updateAvailability
  | DELETE => deleteProduct
  end.

(** The id of the record a create answered with, if it did. *)
Definition created_id (e : Endpoint) (out : Result Response) : option Z :=
  match e, out with
  | POST, Ok (mkResponse _ (Data p)) => Some (id p)
  | _, _ => None
  end.

(** The ids given to new products while the requests are served in order. *)
Fixpoint created_ids (w : World) (reqs : list (Endpoint * Request)) : list Z :=
  match reqs with
  | [] => []
  | (e, req) :: reqs =>
      let out := handler e req w in
      match created_id e out.2 with
      | Some k => k :: created_ids out.1 reqs
      | None => created_ids out.1 reqs
      end
  end.

(** A create request leaves the key to the database. *)
Definition no_explicit_id (r : Endpoint * Request) : Prop :=
  r.1 = POST → body r.2 !! "id" = None.

(** The handlers that write. *)
Inductive Mutation := MCreate | MUpdate | MToggle | MDelete.

Definition mutating_handler (m : Mutation) : Request → Async Response :=
  match m with
  | MCreate => createProduct
  | MUpdate => updateProduct
  | MToggle => updateAvailability
  | MDelete => deleteProduct
  end.

(** The request was answered with a 2xx status. *)
Definition successful (out : World * Result Response) : Prop :=
  ∃ r, out.2 = Ok r ∧ 200 ≤ status r < 300.

(** The statement each mutating handler writes with. *)
Definition statement_of (m : Mutation) : Statement :=
  match m with
  | MCreate => SQL_INSERT
  | MUpdate => SQL_UPDATE
  | MToggle => SQL_UPDATE
  | MDelete => SQL_DELETE
  end.

Import Server.

(** ** Statements of the specification, as worded *)


(** The statement that exactly one write reaches the persistence layer per
    successful request of a mutating handler. *)
Definition one_write_per_success : Prop :=
  ∀ m req w,
    successful (mutating_handler m req w) →
    ∃ st, sent (mutating_handler m req w).1 = (sent w ++ [st])%list.

(** The statement that no id is given to two products. *)
Definition ids_never_reused : Prop :=
  ∀ reqs, NoDup (created_ids boot reqs).

(** The statement that a request is accepted exactly when its origin is in
    the allow-list. *)
Definition accepts_only_listed : Prop :=
  ∀ env o, origin env o = Allowed ↔ o ∈ allowedOrigins env.

(** ** Sample requests and worlds *)

(** [String(n)] and [Number(s)] on integers written in decimal, which is all
    the examples below convert. *)
Definition on_integers : Conversions := {|
  number_to_string n :=
    match n with
    | NaN => "NaN"
    | Num q => param_of_pk (Qnum q / Zpos (Qden q))
    | PosInfinity => "Infinity"
    | NegInfinity => "-Infinity"
    end;
  string_to_number s :=
    match Text.integer s with
    | Some k => whole k
    | None => NaN
    end
|}.

Definition monitor : gmap string Value :=
  {[ "name" := JStr "Monitor"; "price" := JNum (whole 300) ]}.

(** The world after [POST {name: "Monitor", price: 300}] on a fresh database. *)
Definition one_monitor : World := (createProduct (mkRequest "" monitor) boot).1.

Definition negative_price_request : Request :=
  mkRequest "" {[ "name" := JStr "Monitor"; "price" := JNum (whole (-5)) ]}.

Definition unavailable_monitor : Request :=
  mkRequest "" (<[ "availability" := JBool false ]> monitor).

Definition keyboard_as_1 : gmap string Value :=
  {[ "id" := JNum (whole 1); "name" := JStr "Teclado"; "price" := JNum (whole 45) ]}.

Definition reuse_1 : list (Endpoint * Request) :=
  [(POST, mkRequest "" monitor);
   (DELETE, mkRequest "1" ∅);
   (POST, mkRequest "" keyboard_as_1)].

Definition three_creates : list (Endpoint * Request) :=
  [(POST, mkRequest "" monitor);
   (DELETE, mkRequest "1" ∅);
   (POST, mkRequest "" monitor);
   (PUT, mkRequest "2" keyboard_as_1);
   (POST, mkRequest "" monitor)].

Definition local_env : Env :=
  mkEnv (Some "http://localhost:5173") (Some "http://localhost:4000").

Definition curved_monitor : gmap string Value :=
  {[ "id" := JNum (whole 9); "name" := JStr "Monitor curvo";
     "price" := JNum (whole 299); "availability" := JBool false ]}.

(** A full update of product 1 with the values [one_monitor] holds. *)
Definition same_monitor : Request :=
  mkRequest "1" {[ "name" := JStr "Monitor"; "price" := JNum (whole 300);
                   "availability" := JBool true ]}.

Definition mark_unavailable : Request :=
  mkRequest "1" {[ "availability" := JBool false ]}.

(** ** The router as a whole *)

Section Router.

Context `{Conversions}.

(** The six bindings of [router], by method and path. *)
Definition router (e : Endpoint) : Request → Async Response :=
  match e with
  | GET_all => router_get
  | GET_one => router_get_id
  | POST => router_post
  | PUT => router_put
  | PATCH => router_patch
  | DELETE => router_delete
  end.

End Router.

(** * Properties *)

(** ** Reading an id back *)

Lemma uint_all_digits (d : Decimal.uint) :
  Text.all_digits (NilEmpty.string_of_uint d) = true.
Proof. induction d; cbn; by rewrite ?IHd. Qed.

Lemma digits_only (s : string) :
  Text.all_digits s = true →
  Text.leading_digits s = s ∧ Text.skip_digits s = "".
Proof.
  induction s as [|c s IH]; [done|]. cbn.
  destruct (Text.is_digit c); [|done]. cbn. intros Hs.
  destruct (IH Hs) as [-> ->]. done.
Qed.

Lemma natural_of_uint (d : Decimal.uint) :
  d ≠ Decimal.Nil →
  Text.natural (NilEmpty.string_of_uint d) = Some (Z.of_uint d).
Proof.
  intros Hd. unfold Text.natural.
  destruct (digits_only _ (uint_all_digits d)) as [-> ->]. cbn.
  assert (Hu : NilZero.uint_of_string (NilEmpty.string_of_uint d) = Some d).
  { rewrite <- (NilZero.usu d Hd). by destruct d. }
  by rewrite Hu.
Qed.

Lemma uint_starts_with_digit (d : Decimal.uint) :
  d ≠ Decimal.Nil →
  ∃ c u, NilEmpty.string_of_uint d = String c u ∧ Text.is_digit c = true.
Proof. intros Hd. destruct d; [done|..]; by eexists _, _. Qed.

Lemma integer_of_uint (d : Decimal.uint) :
  d ≠ Decimal.Nil →
  Text.integer (NilEmpty.string_of_uint d) = Some (Z.of_uint d).
Proof.
  intros Hd. rewrite <- (natural_of_uint d Hd).
  destruct (uint_starts_with_digit d Hd) as (c & u & -> & Hc).
  unfold Text.integer, Text.is_digit in *.
  destruct c as [[] [] [] [] [] [] [] []]; try done.
Qed.

Lemma integer_of_negated_uint (d : Decimal.uint) :
  d ≠ Decimal.Nil →
  Text.integer (String "-" (NilEmpty.string_of_uint d)) = Some (- Z.of_uint d).
Proof.
  intros Hd. unfold Text.integer.
  change (Text.skip_spaces (String "-" (NilEmpty.string_of_uint d)))
    with (String "-" (NilEmpty.string_of_uint d)).
  change (Ascii.eqb "-" "-") with true. cbn match.
  by rewrite (natural_of_uint d Hd).
Qed.

Lemma string_of_nonnil_uint (d : Decimal.uint) :
  d ≠ Decimal.Nil → NilZero.string_of_uint d = NilEmpty.string_of_uint d.
Proof. by destruct d. Qed.

(** Every integer, written in decimal, is read back as itself. *)
Lemma integer_of_decimal (k : Z) : Text.integer (param_of_pk k) = Some k.
Proof.
  unfold param_of_pk. destruct k as [|p|p]; [done| |];
    pose proof (DecimalPos.Unsigned.to_uint_nonnil p) as Hnn;
    cbn [Z.to_int NilZero.string_of_int];
    rewrite (string_of_nonnil_uint _ Hnn).
  - rewrite (integer_of_uint _ Hnn). f_equal.
    unfold Z.of_uint. by rewrite DecimalPos.Unsigned.of_to.
  - rewrite (integer_of_negated_uint _ Hnn). f_equal.
    unfold Z.of_uint. by rewrite DecimalPos.Unsigned.of_to.
Qed.

(** An id the key column can hold, written in decimal, is the key read. *)
Lemma pk_of_param_of_pk (k : Z) :
  in_key_range k = true → pk_of_param (param_of_pk k) = Some k.
Proof. intros Hk. unfold pk_of_param. by rewrite integer_of_decimal, Hk. Qed.

Lemma pk_of_param_spec (s : string) (k : Z) :
  pk_of_param s = Some k ↔ Text.integer s = Some k ∧ in_key_range k = true.
Proof.
  unfold pk_of_param. destruct (Text.integer s) as [k'|].
  - destruct (in_key_range k') eqn:Hr; split.
    + by intros [= <-].
    + by intros [[= <-] _].
    + done.
    + intros [[= <-] Hk]. congruence.
  - split; [done|]. by intros [? _].
Qed.

(** ** The handlers, step by step *)

Lemma bind_run {A B} (c : Async A) (k : A → Async B) (w : World) :
  (c ≫= k) w = match c w with
               | (w', Ok a) => k a w'
               | (w', Rejected e) => (w', Rejected e)
               end.
Proof. reflexivity. Qed.

Lemma with_product_run (req : Request) (w : World)
    (then_ : Model.Instance → Async Response) :
  (product ← Model.findByPk (params_id req);
   match product with
   | None => mret not_found
   | Some product => then_ product
   end) w
  = match pk_of_param (params_id req) with
    | None =>
        (log (FindByPk (params_id req)) w, Rejected (id_error (params_id req)))
    | Some k =>
        match rows (store w) !! k with
        | None => (log (FindByPk (params_id req)) w, Ok not_found)
        | Some r => then_ (found k r) (log (FindByPk (params_id req)) w)
        end
    end.
Proof.
  unfold mbind. rewrite bind_run. unfold Model.findByPk.
  destruct (pk_of_param (params_id req)) as [k|]; [|done].
  cbn [log store rows]. by destruct (rows (store w) !! k).
Qed.

Lemma handler_not_found (req : Request) (k : Z) (w : World)
    (then_ : Model.Instance → Async Response) :
  pk_of_param (params_id req) = Some k →
  rows (store w) !! k = None →
  (product ← Model.findByPk (params_id req);
   match product with
   | None => mret not_found
   | Some product => then_ product
   end) w
  = (log (FindByPk (params_id req)) w, Ok not_found).
Proof. intros Hk Hr. by rewrite with_product_run, Hk, Hr. Qed.

Lemma toggle_changes (p : Product) :
  set_availability p (negb (availability p)) ≠ p.
Proof. destruct p as [k n x []]; by intros [=]. Qed.

Lemma updateAvailability_found (req : Request) (k : Z) (r : Row) (w : World) :
  pk_of_param (params_id req) = Some k →
  rows (store w) !! k = Some r →
  updateAvailability req w
  = (mkWorld (mkStore (<[k := toggled r]> (rows (store w))) (seq (store w)))
             (calls w ++ [FindByPk (params_id req); Save])
             (sent w ++ [SQL_UPDATE]),
     Ok (res_json (Data (instance k (toggled r))))).
Proof.
  intros Hk Hr. unfold updateAvailability.
  rewrite with_product_run, Hk, Hr, bind_run.
  unfold Model.save, Model.persist, assign_availability, Model.assign, found.
  cbn [Model.dataValues Model.changed orb].
  rewrite (bool_decide_eq_true_2 _ (toggle_changes (instance k r))).
  unfold Model.update_row, send, log.
  cbn [store rows id instance set_availability calls sent].
  rewrite Hr. unfold mret, Async_ret, with_rows. cbn.
  by rewrite <- app_assoc.
Qed.

Lemma deleteProduct_found (req : Request) (k : Z) (r : Row) (w : World) :
  pk_of_param (params_id req) = Some k →
  rows (store w) !! k = Some r →
  deleteProduct req w
  = (mkWorld (mkStore (delete k (rows (store w))) (seq (store w)))
             (calls w ++ [FindByPk (params_id req); Destroy])
             (sent w ++ [SQL_DELETE]),
     Ok (res_json (DataText "Producto Eliminado"))).
Proof.
  intros Hk Hr. unfold deleteProduct.
  rewrite with_product_run, Hk, Hr, bind_run.
  unfold Model.destroy, mret, Async_ret, with_rows, send, log, found. cbn.
  by rewrite <- app_assoc.
Qed.

Lemma toggled_involutive (r : Row) : toggled (toggled r) = r.
Proof. destruct r as [n x a]. unfold toggled; cbn. by rewrite negb_involutive. Qed.

(** ** Toggle availability *)

(** C1: for an id that resolves to a stored record, two toggles in a row put
    the record's availability back to its original value: the row read
    under the id afterwards, and the record in the second response, carry the
    availability the row had at the start, and the table is the one the first
    toggle started from. *)
Theorem toggle_twice_restores_availability
    (w : World) (req req' : Request) (k : Z) (r : Row) :
  pk_of_param (params_id req) = Some k →
  pk_of_param (params_id req') = Some k →
  rows (store w) !! k = Some r →
  let w1 := (updateAvailability req w).1 in
  let out := updateAvailability req' w1 in
  row_availability <$> rows (store out.1) !! k = Some (row_availability r)
  ∧ store out.1 = store w
  ∧ ∃ p, out.2 = Ok (res_json (Data p)) ∧ availability p = row_availability r.
Proof.
  intros Hk Hk' Hr w1 out. subst out w1.
  rewrite (updateAvailability_found req k r) by done. cbn [fst].
  rewrite (updateAvailability_found req' k (toggled r))
    by (done || apply lookup_insert_eq).
  cbn [fst snd store rows seq]. rewrite insert_insert_eq, toggled_involutive.
  rewrite insert_id by done. rewrite Hr. repeat split.
  - by destruct (store w).
  - by eexists.
Qed.

Lemma toggle_twice_restores_availability_witness :
  let w := (createProduct
              (mkRequest "" {[ "name" := JStr "Monitor";
                               "price" := JNum (whole 300) ]}) boot).1 in
  let w1 := (updateAvailability (mkRequest "1" ∅) w).1 in
  let out := updateAvailability (mkRequest "1" ∅) w1 in
  row_availability <$> rows (store out.1) !! 1 = Some true
  ∧ store out.1 = store w
  ∧ ∃ p, out.2 = Ok (res_json (Data p)) ∧ availability p = true.
Proof.
  intros w.
  apply (toggle_twice_restores_availability w (mkRequest "1" ∅)
           (mkRequest "1" ∅) 1 (mkRow "Monitor" (whole 300) true)); reflexivity.
Defined.

(** C2: for a stored product and any request body, the toggle answers 200
    with the record whose availability is the negation of the stored one and
    whose id, name and price are the stored ones; the row under the id is
    rewritten accordingly, every other row is left alone, and a request with
    the same id and any other body has the same outcome. *)
Theorem toggle_negates_and_frames (w : World) (req : Request) (k : Z) (r : Row) :
  pk_of_param (params_id req) = Some k →
  rows (store w) !! k = Some r →
  let out := updateAvailability req w in
  out.2 = Ok (mkResponse 200
                (Data (mkProduct k (row_name r) (row_price r)
                         (negb (row_availability r)))))
  ∧ rows (store out.1) !! k
    = Some (mkRow (row_name r) (row_price r) (negb (row_availability r)))
  ∧ (∀ j, j ≠ k → rows (store out.1) !! j = rows (store w) !! j)
  ∧ seq (store out.1) = seq (store w)
  ∧ ∀ b, updateAvailability (mkRequest (params_id req) b) w = out.
Proof.
  intros Hk Hr out. subst out.
  rewrite (updateAvailability_found req k r) by done.
  cbn [fst snd store rows seq]. repeat split.
  - apply lookup_insert_eq.
  - intros j Hj. by apply lookup_insert_ne.
  - intros b. by rewrite (updateAvailability_found _ k r).
Qed.

Lemma toggle_negates_and_frames_witness :
  let w := mkWorld (mkStore {[ 7 := mkRow "Teclado" (whole 45) false ]} 7) [] [] in
  let req := mkRequest "7" {[ "availability" := JBool false ]} in
  let out := updateAvailability req w in
  out.2 = Ok (mkResponse 200 (Data (mkProduct 7 "Teclado" (whole 45) true)))
  ∧ rows (store out.1) !! 7 = Some (mkRow "Teclado" (whole 45) true)
  ∧ (∀ j, j ≠ 7 → rows (store out.1) !! j = rows (store w) !! j)
  ∧ seq (store out.1) = seq (store w)
  ∧ ∀ b, updateAvailability (mkRequest "7" b) w = out.
Proof.
  intros w req.
  apply (toggle_negates_and_frames w req 7 (mkRow "Teclado" (whole 45) false));
    reflexivity.
Defined.

(** ** Not found *)




(** ** Delete *)

(** C5: for an id that resolves to a stored record, delete removes the row
    and answers 200 with a confirmation text, not a record; every other row
    stays, and a get-by-id with the same id right afterwards answers 404. *)
Theorem delete_then_get_is_404 (w : World) (req : Request) (k : Z) (r : Row) :
  pk_of_param (params_id req) = Some k →
  rows (store w) !! k = Some r →
  let out := deleteProduct req w in
  out.2 = Ok (mkResponse 200 (DataText "Producto Eliminado"))
  ∧ rows (store out.1) = delete k (rows (store w))
  ∧ rows (store out.1) !! k = None
  ∧ (getProductById req out.1).2
    = Ok (mkResponse 404 (Error "Producto no encontrado")).
Proof.
  intros Hk Hr out. subst out.
  rewrite (deleteProduct_found req k r) by done.
  cbn [fst snd store rows]. repeat split.
  - apply lookup_delete_eq.
  - unfold getProductById. rewrite (handler_not_found _ k); [done|done|].
    apply lookup_delete_eq.
Qed.

Lemma delete_then_get_is_404_witness :
  let w := mkWorld (mkStore {[ 7 := mkRow "Teclado" (whole 45) false ]} 7) [] [] in
  let out := deleteProduct (mkRequest "7" ∅) w in
  out.2 = Ok (mkResponse 200 (DataText "Producto Eliminado"))
  ∧ rows (store out.1) = delete 7 (rows (store w))
  ∧ rows (store out.1) !! 7 = None
  ∧ (getProductById (mkRequest "7" ∅) out.1).2
    = Ok (mkResponse 404 (Error "Producto no encontrado")).
Proof.
  intros w.
  apply (delete_then_get_is_404 w (mkRequest "7" ∅) 7
           (mkRow "Teclado" (whole 45) false)); reflexivity.
Defined.

(** ** Validation before create *)

Section ValidationFacts.

Context `{Conversions}.

Lemma run_chain_elem (req : Request) (c : Chain) (r : Rule) :
  r ∈ rules c →
  passes (predicate r) (select req c) = false →
  mkFieldError (path c) (message r) ∈ run_chain req c.
Proof.
  intros Hin Hfail. unfold run_chain.
  apply (list_elem_of_fmap_2 (λ r, mkFieldError (path c) (message r))).
  by apply list_elem_of_filter.
Qed.

Lemma run_chain_field (req : Request) (c : Chain) (e : FieldError) :
  e ∈ run_chain req c → field e = path c.
Proof.
  unfold run_chain. intros Hin.
  apply list_elem_of_fmap in Hin as (r & -> & _). done.
Qed.

Lemma validationResult_elem (req : Request) (cs : list Chain) (e : FieldError) :
  e ∈ validationResult req cs ↔ ∃ c, c ∈ cs ∧ e ∈ run_chain req c.
Proof.
  unfold validationResult. rewrite list_elem_of_bind.
  split; intros (c & H1 & H2); exists c; done.
Qed.

(** The chain of a body field reads nothing but that field. *)
Lemma run_chain_body_field (req req' : Request) (f : string) (rs : list Rule) :
  body req !! f = body req' !! f →
  run_chain req (body_ f rs) = run_chain req' (body_ f rs).
Proof. intros Heq. unfold run_chain, select. cbn. by rewrite Heq. Qed.

(** What the create route validates is decided by [name] and [price]. *)
Lemma post_validation_reads_name_and_price (req req' : Request) :
  body req !! "name" = body req' !! "name" →
  body req !! "price" = body req' !! "price" →
  validationResult req [name_chain; price_chain]
  = validationResult req' [name_chain; price_chain].
Proof.
  intros Hn Hp. unfold validationResult, name_chain, price_chain.
  rewrite !bind_cons.
  by rewrite (run_chain_body_field req req' "name"),
             (run_chain_body_field req req' "price").
Qed.

End ValidationFacts.

Lemma le_zero_not_gt_zero (n : Number) : le_zero n = true → gt_zero n = false.
Proof. destruct n; cbn; try done. by intros ->. Qed.

Lemma less_or_equal_not_greater `{Conversions} (v : option Value) :
  less_or_equal_zero v = true → greater_than_zero v = false.
Proof.
  destruct v as [[|b|n|s]|]; cbn; try done.
  - by destruct b.
  - apply le_zero_not_gt_zero.
  - apply le_zero_not_gt_zero.
Qed.

(** C4: a create request whose price is at most 0, or whose name reads as the
    empty string, is answered 400 with a non-empty list of errors, each on
    [name] or [price] and among them the error of the offending field; the
    world is returned as it was received, so nothing was persisted and the
    handler made no call. *)
Theorem invalid_create_is_400 `{Conversions} (req : Request) (w : World) :
  less_or_equal_zero (body req !! "price") = true
  ∨ toString (body req !! "name") = "" →
  ∃ es,
    router_post req w = (w, Ok (mkResponse 400 (Errors es)))
    ∧ es ≠ []
    ∧ (∀ e, e ∈ es → field e = "name" ∨ field e = "price")
    ∧ (toString (body req !! "name") = "" →
       mkFieldError "name" "El campo nombre no puede estar vacio" ∈ es)
    ∧ (less_or_equal_zero (body req !! "price") = true →
       mkFieldError "price" "Precio no valido" ∈ es).
Proof.
  intros Hbad.
  set (cs := [name_chain; price_chain]).
  set (es := validationResult req cs).
  assert (Hname : toString (body req !! "name") = "" →
                  mkFieldError "name" "El campo nombre no puede estar vacio" ∈ es).
  { intros Hn. apply validationResult_elem. exists name_chain. split.
    - subst cs. apply list_elem_of_here.
    - apply (run_chain_elem req name_chain
               (withMessage notEmpty "El campo nombre no puede estar vacio")).
      + apply list_elem_of_here.
      + cbn. unfold select. cbn. by rewrite Hn. }
  assert (Hprice : less_or_equal_zero (body req !! "price") = true →
                   mkFieldError "price" "Precio no valido" ∈ es).
  { intros Hle. apply validationResult_elem. exists price_chain. split.
    - subst cs. apply list_elem_of_further, list_elem_of_here.
    - apply (run_chain_elem req price_chain
               (withMessage (custom greater_than_zero) "Precio no valido")).
      + cbn. do 2 apply list_elem_of_further. apply list_elem_of_here.
      + cbn. unfold select. cbn. by apply less_or_equal_not_greater. }
  assert (Hne : es ≠ []).
  { intros Hnil. rewrite Hnil in Hname, Hprice.
    destruct Hbad as [Hle|Hn].
    - by apply not_elem_of_nil in Hprice.
    - by apply not_elem_of_nil in Hname. }
  exists es. repeat split; [|done| |done|done].
  - unfold router_post, route. fold cs. fold es.
    unfold handleInputErrors. by destruct es.
  - intros e He. apply validationResult_elem in He as (c & Hc & He).
    apply run_chain_field in He. subst cs.
    apply elem_of_cons in Hc as [->|Hc]; [by left|].
    apply list_elem_of_singleton in Hc as ->. by right.
Qed.

Lemma invalid_create_is_400_witness :
  ∃ es,
    @router_post on_integers negative_price_request boot
    = (boot, Ok (mkResponse 400 (Errors es)))
    ∧ mkFieldError "price" "Precio no valido" ∈ es.
Proof.
  destruct (@invalid_create_is_400 on_integers negative_price_request boot)
    as (es & Hrun & _ & _ & _ & Hprice).
  - left. reflexivity.
  - exists es. split; [exact Hrun|]. apply Hprice. reflexivity.
Defined.

(** ** Statements sent to the database *)

(** The three ways a lookup by the path parameter can go: the product is
    found, it is absent, or the parameter is no integer. *)
Ltac lookup_cases req w k r Hk Hr :=
  destruct (pk_of_param (params_id req)) as [k|] eqn:Hk;
  [destruct (rows (store w) !! k) as [r|] eqn:Hr|].

(** After a lookup that did not find the product, the handler has answered
    404 or was rejected, which contradicts [H]. *)
Ltac not_answered h req k Hk H :=
  unfold h in H;
  first [rewrite (handler_not_found req k) in H by done
        |rewrite with_product_run, Hk in H];
  cbn in H; try done; inversion H; subst; cbn in *; lia.

Lemma set_keeps_id (p p' : Product) (b : gmap string Value) :
  Model.set p b = Ok p' → id p' = id p.
Proof.
  unfold Model.set. intros Hset.
  repeat match type of Hset with
         | context [match ?x with _ => _ end] => destruct x
         end; by inversion Hset.
Qed.

Lemma same_record_same_row (k : Z) (r : Row) (p : Product) :
  id p = k → (p = instance k r ↔ row_of p = r).
Proof.
  intros <-. split.
  - intros ->. by destruct r.
  - intros <-. by destruct p.
Qed.

Lemma updateProduct_found (req : Request) (k : Z) (r : Row) (p' : Product)
    (w : World) :
  pk_of_param (params_id req) = Some k →
  rows (store w) !! k = Some r →
  Model.set (instance k r) (body req) = Ok p' →
  updateProduct req w
  = (mkWorld (mkStore (<[k := row_of p']> (rows (store w))) (seq (store w)))
             (calls w ++ [FindByPk (params_id req); Update; Save])
             (sent w ++ if bool_decide (row_of p' = r) then [] else [SQL_UPDATE]),
     Ok (res_json (Data p'))).
Proof.
  intros Hk Hr Hset. pose proof (set_keeps_id _ _ _ Hset) as Hid. cbn in Hid.
  unfold updateProduct. rewrite with_product_run, Hk, Hr.
  rewrite bind_run. unfold Model.update, found.
  cbn [Model.dataValues]. rewrite Hset.
  unfold Model.assign, Model.persist. cbn [Model.dataValues Model.changed orb].
  pose proof (same_record_same_row k r p' Hid) as Hsame.
  case_bool_decide as Hne.
  - rewrite bool_decide_eq_false_2 by (by rewrite <- Hsame).
    unfold Model.update_row, send, log. cbn [store rows calls sent].
    rewrite Hid, Hr. rewrite bind_run.
    unfold Model.save, Model.persist. cbn [Model.changed Model.dataValues].
    unfold mret, Async_ret, with_rows, log. cbn. by rewrite <- !app_assoc.
  - assert (Heq : p' = instance k r) by (by destruct (decide (p' = instance k r))).
    rewrite bool_decide_eq_true_2 by (by rewrite <- Hsame).
    rewrite bind_run.
    unfold Model.save, Model.persist. cbn [Model.changed Model.dataValues].
    unfold mret, Async_ret, log. cbn.
    rewrite insert_id by (rewrite Hr; f_equal; symmetry; by apply Hsame).
    rewrite app_nil_r, <- !app_assoc. by destruct (store w).
Qed.

Lemma updateProduct_rejected (req : Request) (k : Z) (r : Row) (e : SqlError)
    (w : World) :
  pk_of_param (params_id req) = Some k →
  rows (store w) !! k = Some r →
  Model.set (instance k r) (body req) = Rejected e →
  updateProduct req w
  = (mkWorld (store w) (calls w ++ [FindByPk (params_id req); Update])
             (sent w ++ [SQL_UPDATE]),
     Rejected e).
Proof.
  intros Hk Hr Hset.
  unfold updateProduct. rewrite with_product_run, Hk, Hr.
  rewrite bind_run. unfold Model.update, found.
  cbn [Model.dataValues]. rewrite Hset.
  unfold send, log. cbn. by rewrite <- !app_assoc.
Qed.

Lemma createProduct_sent (req : Request) (w : World) :
  sent (createProduct req w).1 = (sent w ++ [SQL_INSERT])%list.
Proof.
  unfold createProduct. rewrite bind_run. unfold Model.create.
  destruct (Model.build (body req)) as [[[k|] r]|e]; [| |done].
  - unfold Model.insert_row. cbn [send log store rows].
    by destruct (rows (store w) !! k).
  - rewrite bind_run. unfold Model.nextval, Model.insert_row.
    cbn [send log store rows seq calls sent].
    destruct (in_key_range (seq (store w) + 1)); [|done].
    cbn [store rows]. by destruct (rows (store w) !! (seq (store w) + 1)).
Qed.

(** C6, as stated, fails on a full update that changes nothing: [PUT /1]
    with the values product 1 already has is answered 200 and no statement
    reaches the database, the instance having no changed value to save. *)
Lemma unchanged_update_writes_nothing :
  successful (updateProduct same_monitor one_monitor)
  ∧ (updateProduct same_monitor one_monitor).2
    = Ok (mkResponse 200 (Data (mkProduct 1 "Monitor" (whole 300) true)))
  ∧ sent (updateProduct same_monitor one_monitor).1 = sent one_monitor
  ∧ ¬ one_write_per_success.
Proof.
  assert (Hs : successful (updateProduct same_monitor one_monitor)).
  { eexists. split; [reflexivity|]. cbn. lia. }
  split; [exact Hs|]. split; [reflexivity|]. split; [reflexivity|].
  intros Hone. destruct (Hone MUpdate same_monitor one_monitor Hs) as [st Hst].
  vm_compute in Hst. discriminate.
Qed.

(** C6, amended: per successful request, create, toggle-availability and
    delete send exactly one write statement to the database, and the full
    update sends one [UPDATE] when the record it answers differs from the
    stored row and none when it changes nothing; no handler sends more than
    one. *)
Theorem write_statements_per_success
    (m : Mutation) (req : Request) (w : World) :
  successful (mutating_handler m req w) →
  match m with
  | MUpdate =>
      ∃ k r p,
        pk_of_param (params_id req) = Some k
        ∧ rows (store w) !! k = Some r
        ∧ (updateProduct req w).2 = Ok (mkResponse 200 (Data p))
        ∧ sent (updateProduct req w).1
          = (sent w ++ if bool_decide (row_of p = r) then [] else [SQL_UPDATE])%list
  | _ =>
      sent (mutating_handler m req w).1 = (sent w ++ [statement_of m])%list
  end.
Proof.
  intros (resp & Hout & Hst). destruct m; cbn [mutating_handler statement_of] in *.
  - apply createProduct_sent.
  - lookup_cases req w k r Hk Hr.
    + destruct (Model.set (instance k r) (body req)) as [p'|e] eqn:Hset.
      * exists k, r, p'.
        rewrite (updateProduct_found req k r p') by done. done.
      * by rewrite (updateProduct_rejected req k r e) in Hout.
    + not_answered updateProduct req k Hk Hout.
    + not_answered updateProduct req k Hk Hout.
  - lookup_cases req w k r Hk Hr.
    + by rewrite (updateAvailability_found req k r).
    + not_answered updateAvailability req k Hk Hout.
    + not_answered updateAvailability req k Hk Hout.
  - lookup_cases req w k r Hk Hr.
    + by rewrite (deleteProduct_found req k r).
    + not_answered deleteProduct req k Hk Hout.
    + not_answered deleteProduct req k Hk Hout.
Qed.

Lemma write_statements_per_success_witness :
  sent (updateProduct (mkRequest "1" curved_monitor) one_monitor).1
  = [SQL_INSERT; SQL_UPDATE].
Proof.
  destruct (write_statements_per_success MUpdate
              (mkRequest "1" curved_monitor) one_monitor)
    as (k & r & p & Hk & Hr & Hout & Hsent).
  - eexists. split; [reflexivity|]. cbn. lia.
  - rewrite Hsent. injection Hk as <-. injection Hr as <-. injection Hout as <-.
    reflexivity.
Defined.

(** ** Create forwards the whole body *)

Lemma createProduct_generated (req : Request) (r : Row) (w : World) :
  Model.build (body req) = Ok (None, r) →
  in_key_range (seq (store w) + 1) = true →
  rows (store w) !! (seq (store w) + 1) = None →
  createProduct req w
  = (mkWorld (mkStore (<[seq (store w) + 1 := r]> (rows (store w)))
                      (seq (store w) + 1))
             (calls w ++ [Create]) (sent w ++ [SQL_INSERT]),
     Ok (res_status_json 201 (Data (instance (seq (store w) + 1) r)))).
Proof.
  intros Hb Hrange Hfree. unfold createProduct. rewrite bind_run.
  unfold Model.create. rewrite Hb, bind_run.
  unfold Model.nextval, Model.insert_row.
  cbn [send log store rows seq calls sent]. rewrite Hrange.
  cbn [store rows]. by rewrite Hfree.
Qed.

Lemma createProduct_explicit (req : Request) (k : Z) (r : Row) (w : World) :
  Model.build (body req) = Ok (Some k, r) →
  rows (store w) !! k = None →
  createProduct req w
  = (mkWorld (mkStore (<[k := r]> (rows (store w))) (seq (store w)))
             (calls w ++ [Create]) (sent w ++ [SQL_INSERT]),
     Ok (res_status_json 201 (Data (instance k r)))).
Proof.
  intros Hb Hfree. unfold createProduct. rewrite bind_run.
  unfold Model.create. rewrite Hb.
  unfold Model.insert_row. cbn [send log store rows seq calls sent].
  by rewrite Hfree.
Qed.

Lemma integral_whole (k : Z) (q : Qc) :
  whole k = Num q → integral q = Some k.
Proof.
  intros [= <-]. unfold integral, Q2Qc. cbn [this].
  rewrite Qred_identity by (cbn; apply Z.gcd_1_r).
  cbn. by case_decide.
Qed.

(** C8: create hands the whole body to the model.  With a text name and a
    numeric price, an [availability] found in the body is the availability of
    the record answered with 201 and of the row persisted, whatever it is;
    and so is an [id] found in the body, when the key column can hold it and
    no row has that key.  Without an [id] the key is the next value of the
    sequence, as long as the column can hold it. *)
Theorem create_persists_body_fields
    (w : World) (req : Request) (n : string) (x : Number) (a : bool) :
  body req !! "name" = Some (JStr n) →
  body req !! "price" = Some (JNum x) →
  body req !! "availability" = Some (JBool a) →
  (body req !! "id" = None →
   in_key_range (seq (store w) + 1) = true →
   rows (store w) !! (seq (store w) + 1) = None →
   let out := createProduct req w in
   out.2 = Ok (mkResponse 201 (Data (mkProduct (seq (store w) + 1) n x a)))
   ∧ rows (store out.1) !! (seq (store w) + 1) = Some (mkRow n x a))
  ∧ (∀ k, body req !! "id" = Some (JNum (whole k)) →
     in_key_range k = true →
     rows (store w) !! k = None →
     let out := createProduct req w in
     out.2 = Ok (mkResponse 201 (Data (mkProduct k n x a)))
     ∧ rows (store out.1) !! k = Some (mkRow n x a)).
Proof.
  intros Hn Hx Ha. split.
  - intros Hid Hrange Hfree out. subst out.
    rewrite (createProduct_generated req (mkRow n x a)); [| |done|done].
    + cbn [fst snd store rows]. split; [done|apply lookup_insert_eq].
    + unfold Model.build, col_id. by rewrite Hid, Hn, Hx, Ha.
  - intros k Hid Hrange Hfree out. subst out.
    rewrite (createProduct_explicit req k (mkRow n x a)); [| |done].
    + cbn [fst snd store rows]. split; [done|apply lookup_insert_eq].
    + unfold Model.build, col_id, whole in *. rewrite Hid.
      rewrite (integral_whole k _ eq_refl), Hrange. by rewrite Hn, Hx, Ha.
Qed.

Lemma create_persists_body_fields_witness :
  (createProduct unavailable_monitor boot).2
  = Ok (mkResponse 201 (Data (mkProduct 1 "Monitor" (whole 300) false)))
  ∧ rows (store (createProduct unavailable_monitor boot).1) !! 1
    = Some (mkRow "Monitor" (whole 300) false).
Proof.
  destruct (create_persists_body_fields boot unavailable_monitor
              "Monitor" (whole 300) false) as [Hgenerated _];
    [reflexivity..|].
  apply Hgenerated; reflexivity.
Defined.

(** ** CORS *)

Lemma allowedOrigins_elem (env : Env) (o : option string) :
  o ∈ allowedOrigins env
  ↔ truthy o = true ∧ (o = FRONTEND_URL env ∨ o = API_URL env).
Proof.
  unfold allowedOrigins. rewrite list_elem_of_filter.
  rewrite elem_of_cons, list_elem_of_singleton. done.
Qed.

(** C9, as stated, fails on a request that carries no origin: it is accepted
    although no allow-list contains it. *)
Lemma request_without_origin_is_allowed :
  origin local_env None = Allowed
  ∧ (None ∉ allowedOrigins local_env)
  ∧ ¬ accepts_only_listed.
Proof.
  assert (Hnot : None ∉ allowedOrigins local_env).
  { rewrite allowedOrigins_elem. by intros [? _]. }
  repeat split; [done|].
  intros Hiff. apply Hnot, Hiff. reflexivity.
Qed.

(** C9, amended: the CORS check accepts a request if and only if it carries
    no origin (none, or an empty one) or its origin is in the allow-list,
    which holds the non-empty ones of the two environment values; every other
    request is rejected with the error [Error de CORS]. *)
Theorem cors_accepts_absent_or_listed (env : Env) (o : option string) :
  (origin env o = Allowed ↔ truthy o = false ∨ o ∈ allowedOrigins env)
  ∧ (origin env o = Allowed ∨ origin env o = Failed "Error de CORS")
  ∧ (o ∈ allowedOrigins env
     ↔ truthy o = true ∧ (o = FRONTEND_URL env ∨ o = API_URL env)).
Proof.
  split; [|split; [|apply allowedOrigins_elem]].
  - unfold origin, includes.
    destruct (truthy o); cbn [negb orb].
    + case_bool_decide; split; try done; [by right|by intros [|]].
    + split; [by left|done].
  - unfold origin. destruct (negb (truthy o) || _); [by left|by right].
Qed.

(** ** Boot *)

(** C10: when [authenticate] fails at boot, [connectDB] returns normally:
    it asked for the session once, did not go on to [sync], logged one line
    that contains the error text, left no rejection behind, and did not
    throw. *)
Theorem connectDB_survives_failure (ses : Session) :
  authenticate_resolves ses = false →
  completion (connectDB ses) = Returned tt
  ∧ events (connectDB ses)
    = [Authenticate; ConsoleLog (red_bold (colors_enabled ses) connect_error)]
  ∧ unhandled (connectDB ses) = []
  ∧ ∃ pre post,
      red_bold (colors_enabled ses) connect_error
      = pre ++ "Hubo un error al conectarse a la base de datos" ++ post.
Proof.
  intros Hfail. unfold connectDB, try_catch, mbind, IO_bind.
  unfold await_db_authenticate. cbn. rewrite Hfail. cbn. repeat split.
  unfold red_bold. destruct (colors_enabled ses).
  - exists (esc "31" ++ esc "1"), (esc "22" ++ esc "39"). reflexivity.
  - exists "", "". reflexivity.
Qed.

Lemma connectDB_survives_failure_witness :
  completion (connectDB (mkSession false true false)) = Returned tt
  ∧ events (connectDB (mkSession false true false))
    = [Authenticate;
       ConsoleLog "Hubo un error al conectarse a la base de datos"].
Proof.
  destruct (connectDB_survives_failure (mkSession false true false))
    as (Hc & He & _); [reflexivity|].
  split; [exact Hc|exact He].
Defined.

(** ** Identity of a product across requests *)

(** C7, as stated, fails on reuse: after the monitor created as product 1 is
    deleted, a create whose body names id 1 makes the keyboard product 1.
    The create route validates [name] and [price] only, so the request
    reaches the handler. *)
Lemma deleted_id_is_reused :
  created_ids boot reuse_1 = [1; 1]
  ∧ @router_post on_integers (mkRequest "" keyboard_as_1)
      (deleteProduct (mkRequest "1" ∅) one_monitor).1
    = createProduct (mkRequest "" keyboard_as_1)
        (deleteProduct (mkRequest "1" ∅) one_monitor).1
  ∧ (createProduct (mkRequest "" keyboard_as_1)
       (deleteProduct (mkRequest "1" ∅) one_monitor).1).2
    = Ok (mkResponse 201 (Data (mkProduct 1 "Teclado" (whole 45) true)))
  ∧ ¬ ids_never_reused.
Proof.
  assert (Hids : created_ids boot reuse_1 = [1; 1]) by reflexivity.
  split; [exact Hids|]. split; [vm_compute; reflexivity|].
  split; [vm_compute; reflexivity|].
  intros Hnodup. specialize (Hnodup reuse_1). rewrite Hids in Hnodup.
  apply NoDup_cons in Hnodup as [Hnotin _]. apply Hnotin, list_elem_of_here.
Qed.

Lemma build_without_id (b : gmap string Value) (o : option Z) (r : Row) :
  b !! "id" = None → Model.build b = Ok (o, r) → o = None.
Proof.
  intros Hid. unfold Model.build, col_id. rewrite Hid. intros Hb.
  repeat match type of Hb with
         | context [match ?x with _ => _ end] => destruct x
         end; by inversion Hb.
Qed.

(** Where a request finds its product, and what each handler leaves of the
    table. *)
Lemma updateProduct_dom (req : Request) (w : World) :
  dom (rows (store (updateProduct req w).1)) = dom (rows (store w))
  ∧ seq (store (updateProduct req w).1) = seq (store w).
Proof.
  lookup_cases req w k r Hk Hr.
  - destruct (Model.set (instance k r) (body req)) as [p'|e] eqn:Hset.
    + rewrite (updateProduct_found req k r p') by done.
      cbn [fst store rows seq]. split; [|done].
      by apply dom_insert_lookup_L.
    + by rewrite (updateProduct_rejected req k r e).
  - unfold updateProduct. by rewrite (handler_not_found req k).
  - unfold updateProduct. by rewrite with_product_run, Hk.
Qed.

Lemma updateAvailability_dom (req : Request) (w : World) :
  dom (rows (store (updateAvailability req w).1)) = dom (rows (store w))
  ∧ seq (store (updateAvailability req w).1) = seq (store w).
Proof.
  lookup_cases req w k r Hk Hr.
  - rewrite (updateAvailability_found req k r) by done.
    cbn [fst store rows seq]. split; [|done].
    by apply dom_insert_lookup_L.
  - unfold updateAvailability. by rewrite (handler_not_found req k).
  - unfold updateAvailability. by rewrite with_product_run, Hk.
Qed.

Lemma deleteProduct_seq (req : Request) (w : World) :
  seq (store (deleteProduct req w).1) = seq (store w).
Proof.
  lookup_cases req w k r Hk Hr.
  - by rewrite (deleteProduct_found req k r).
  - unfold deleteProduct. by rewrite (handler_not_found req k).
  - unfold deleteProduct. by rewrite with_product_run, Hk.
Qed.

Lemma getProductById_store (req : Request) (w : World) :
  store (getProductById req w).1 = store w.
Proof.
  unfold getProductById.
  rewrite with_product_run.
  destruct (pk_of_param (params_id req)) as [k|]; [|done].
  by destruct (rows (store w) !! k).
Qed.

(** A create that leaves the key to the database answers with the next value
    of the sequence, and only create moves the sequence. *)
Lemma handler_seq (e : Endpoint) (req : Request) (w : World) :
  no_explicit_id (e, req) →
  match created_id e (handler e req w).2 with
  | Some k => k = seq (store w) + 1 ∧ seq (store (handler e req w).1) = k
  | None => seq (store w) ≤ seq (store (handler e req w).1)
  end.
Proof.
  intros Hid. destruct e; cbn [handler created_id].
  - done.
  - by rewrite getProductById_store.
  - specialize (Hid eq_refl). cbn in Hid.
    unfold createProduct. rewrite bind_run. unfold Model.create.
    destruct (Model.build (body req)) as [[o r]|err] eqn:Hb; [|by cbn].
    apply build_without_id in Hb as ->; [|done].
    rewrite bind_run. unfold Model.nextval, Model.insert_row.
    cbn [send log store rows seq calls sent].
    destruct (in_key_range (seq (store w) + 1)); [|cbn; lia].
    cbn [store rows].
    destruct (rows (store w) !! (seq (store w) + 1)); cbn; [lia|done].
  - destruct (updateProduct_dom req w) as [_ ->].
    by destruct (updateProduct req w).2 as [[? []]|].
  - destruct (updateAvailability_dom req w) as [_ ->].
    by destruct (updateAvailability req w).2 as [[? []]|].
  - rewrite deleteProduct_seq.
    by destruct (deleteProduct req w).2 as [[? []]|].
Qed.

Lemma created_ids_increase (w : World) (reqs : list (Endpoint * Request)) :
  Forall no_explicit_id reqs →
  Forall (λ k, seq (store w) < k) (created_ids w reqs)
  ∧ StronglySorted Z.lt (created_ids w reqs).
Proof.
  intros Hall. revert w.
  induction Hall as [|[e req] reqs Hid _ IH]; intros w; cbn [created_ids].
  - split; constructor.
  - pose proof (handler_seq e req w Hid) as Hstep.
    destruct (IH (handler e req w).1) as [Habove Hsorted].
    destruct (created_id e (handler e req w).2) as [k|].
    + destruct Hstep as [-> Hseq]. rewrite Hseq in Habove. split.
      * constructor; [lia|]. eapply Forall_impl; [exact Habove|].
        cbn. intros; lia.
      * by constructor.
    + split; [|done]. eapply Forall_impl; [exact Habove|].
      cbn. intros; lia.
Qed.

(** C7, amended: a product's id is never changed after creation.  The full
    update, for any request body, and every endpoint other than create and
    delete, leave under each id exactly the products that were there, and a
    record answered by the full update carries the id of the request.  Ids
    are not reused as long as no create body names an id: the ids the
    database generates, from boot on, are strictly increasing. *)
Theorem ids_are_stable_and_generated_fresh :
  (∀ e req w, e ≠ POST → e ≠ DELETE →
     dom (rows (store (handler e req w).1)) = dom (rows (store w)))
  ∧ (∀ req w st p,
       (updateProduct req w).2 = Ok (mkResponse st (Data p)) →
       pk_of_param (params_id req) = Some (id p)
       ∧ is_Some (rows (store w) !! id p)
       ∧ is_Some (rows (store (updateProduct req w).1) !! id p))
  ∧ (∀ reqs, Forall no_explicit_id reqs →
       StronglySorted Z.lt (created_ids boot reqs)
       ∧ NoDup (created_ids boot reqs)).
Proof.
  split; [|split].
  - intros e req w Hpost Hdelete. destruct e; cbn [handler]; try done.
    + by rewrite getProductById_store.
    + apply updateProduct_dom.
    + apply updateAvailability_dom.
  - intros req w st p Hout. lookup_cases req w k r Hk Hr.
    + destruct (Model.set (instance k r) (body req)) as [p'|e] eqn:Hset.
      * pose proof (set_keeps_id _ _ _ Hset) as Hid. cbn in Hid.
        rewrite (updateProduct_found req k r p') in Hout |- * by done.
        cbn [fst snd store rows] in *. inversion Hout; subst.
        rewrite Hr, lookup_insert_eq. eauto.
      * by rewrite (updateProduct_rejected req k r e) in Hout.
    + unfold updateProduct in Hout.
      by rewrite (handler_not_found req k) in Hout.
    + unfold updateProduct in Hout. by rewrite with_product_run, Hk in Hout.
  - intros reqs Hall.
    destruct (created_ids_increase boot reqs Hall) as [_ Hsorted].
    split; [done|].
    clear Hall. induction Hsorted as [|k l _ IH Hlt]; constructor; [|done].
    intros Hin. rewrite Forall_forall in Hlt. specialize (Hlt k Hin). lia.
Qed.

Lemma ids_are_stable_and_generated_fresh_witness :
  created_ids boot three_creates = [1; 2; 3]
  ∧ NoDup (created_ids boot three_creates)
  ∧ pk_of_param "2" = Some 2.
Proof.
  destruct ids_are_stable_and_generated_fresh as (_ & Hput & Hfresh).
  split; [reflexivity|]. split.
  - apply Hfresh. unfold three_creates, no_explicit_id.
    repeat constructor; cbn; try discriminate; reflexivity.
  - apply (Hput (mkRequest "2" keyboard_as_1)
             (mkWorld (mkStore {[ 2 := mkRow "Monitor" (whole 300) true ]} 2) [] [])
             200 (mkProduct 2 "Teclado" (whole 45) true)).
    reflexivity.
Defined.

(** * Further properties of the handlers, the router and the server shell *)

(** ** Listing *)

#[local] Existing Instance Model.id_desc_dec.

#[local] Instance id_desc_trans : Transitive (λ p q : Product, id q ≤ id p).
Proof. intros p q r ? ?. lia. Qed.

#[local] Instance id_desc_total : Total (λ p q : Product, id q ≤ id p).
Proof. intros p q. lia. Qed.

Lemma instance_of_row (p : Product) : instance (id p) (row_of p) = p.
Proof. by destruct p. Qed.

Lemma instances_elem (m : gmap Z Row) (p : Product) :
  p ∈ (λ kr, instance kr.1 kr.2) <$> map_to_list m
  ↔ m !! id p = Some (row_of p).
Proof.
  rewrite list_elem_of_fmap. split.
  - intros ([k r] & -> & Hin). apply elem_of_map_to_list in Hin.
    cbn. by destruct r.
  - intros Hp. exists (id p, row_of p). split.
    + cbn. by rewrite instance_of_row.
    + by apply elem_of_map_to_list.
Qed.

Lemma instances_ids (m : gmap Z Row) :
  id <$> ((λ kr, instance kr.1 kr.2) <$> map_to_list m) = (map_to_list m).*1.
Proof. rewrite <- list_fmap_compose. by apply list_fmap_ext; intros ? []. Qed.

Lemma strictly_descending (ps : list Product) :
  StronglySorted (λ p q : Product, id q ≤ id p) ps →
  NoDup (id <$> ps) →
  StronglySorted (λ p q : Product, id q < id p) ps.
Proof.
  induction 1 as [|p ps _ IH Hall]; intros Hnd; [constructor|].
  rewrite fmap_cons in Hnd. apply NoDup_cons in Hnd as [Hnotin Hnd].
  constructor; [by apply IH|].
  rewrite Forall_forall in Hall |- *. intros q Hq.
  specialize (Hall q Hq). cbn in Hall.
  destruct (decide (id q = id p)) as [Heq|Hne]; [|lia].
  destruct Hnotin. rewrite <- Heq. by apply list_elem_of_fmap_2.
Qed.

(** X1: the list handler answers 200 with every stored product exactly once,
    highest id first, and leaves the store as it was. *)
Theorem getProducts_lists_all_descending (req : Request) (w : World) :
  ∃ ps,
    getProducts req w = (log FindAll w, Ok (mkResponse 200 (DataList ps)))
    ∧ StronglySorted (λ p q : Product, id q < id p) ps
    ∧ (∀ p, p ∈ ps ↔ rows (store w) !! id p = Some (row_of p))
    ∧ length ps = size (rows (store w))
    ∧ store (getProducts req w).1 = store w.
Proof.
  set (l := (λ kr, instance kr.1 kr.2) <$> map_to_list (rows (store w))).
  exists (merge_sort (λ p q : Product, id q ≤ id p) l).
  pose proof (merge_sort_Permutation (λ p q : Product, id q ≤ id p) l) as Hperm.
  split; [reflexivity|]. split; [|split; [|split; [|reflexivity]]].
  - apply strictly_descending.
    + apply (StronglySorted_merge_sort _).
    + rewrite Hperm. subst l. rewrite instances_ids.
      apply NoDup_fst_map_to_list.
  - intros p. rewrite Hperm. apply instances_elem.
  - rewrite Hperm. subst l. by rewrite length_fmap, length_map_to_list.
Qed.

(** ** Reading one product *)

Lemma writes_lookup (l : list OrmCall) (pk : string) :
  writes (l ++ [FindByPk pk]) = writes l.
Proof. unfold writes. rewrite filter_app. cbn. by rewrite app_nil_r. Qed.

Lemma getProductById_found (req : Request) (k : Z) (r : Row) (w : World) :
  pk_of_param (params_id req) = Some k →
  rows (store w) !! k = Some r →
  getProductById req w
  = (log (FindByPk (params_id req)) w, Ok (res_json (Data (instance k r)))).
Proof.
  intros Hk Hr. unfold getProductById.
  rewrite with_product_run.
  by rewrite Hk, Hr.
Qed.

(** X2: get-by-id never changes the store, issues no write call and sends
    no statement that writes; when the id is stored it answers 200 with the
    record built from the row. *)
Theorem getProductById_reads_only (req : Request) (w : World) :
  store (getProductById req w).1 = store w
  ∧ writes (calls (getProductById req w).1) = writes (calls w)
  ∧ sent (getProductById req w).1 = sent w
  ∧ ∀ k r,
      pk_of_param (params_id req) = Some k →
      rows (store w) !! k = Some r →
      (getProductById req w).2
      = Ok (mkResponse 200 (Data (mkProduct k (row_name r) (row_price r)
                                    (row_availability r)))).
Proof.
  unfold getProductById.
  rewrite with_product_run.
  split; [|split; [|split]].
  - lookup_cases req w k r Hk Hr; done.
  - assert (Hlog : writes (calls (log (FindByPk (params_id req)) w))
                   = writes (calls w)).
    { apply writes_lookup. }
    lookup_cases req w k r Hk Hr; exact Hlog.
  - lookup_cases req w k r Hk Hr; done.
  - intros k r Hk Hr. by rewrite Hk, Hr.
Qed.

(** ** Full update *)

Lemma set_full_body (p : Product) (b : gmap string Value)
    (n : string) (x : Number) (a : bool) :
  b !! "name" = Some (JStr n) →
  b !! "price" = Some (JNum x) →
  b !! "availability" = Some (JBool a) →
  Model.set p b = Ok (mkProduct (id p) n x a).
Proof. intros Hn Hx Ha. unfold Model.set. by rewrite Hn, Hx, Ha. Qed.

Lemma set_fields (p p' : Product) (b : gmap string Value) :
  Model.set p b = Ok p' →
  (b !! "name" = None → name p' = name p)
  ∧ (b !! "price" = None → price p' = price p)
  ∧ (b !! "availability" = None → availability p' = availability p)
  ∧ (∀ n, b !! "name" = Some (JStr n) → name p' = n)
  ∧ (∀ x, b !! "price" = Some (JNum x) → price p' = x)
  ∧ (∀ a, b !! "availability" = Some (JBool a) → availability p' = a).
Proof.
  unfold Model.set, col_name, col_price, col_availability. intros Hset.
  destruct (b !! "name") as [[| |?|?]|]; try done;
  destruct (b !! "price") as [[| |?|?]|]; try done;
  destruct (b !! "availability") as [[| |?|?]|]; try done;
  inversion Hset; subst; cbn; repeat split; congruence.
Qed.

Lemma set_idempotent (p p' : Product) (b : gmap string Value) :
  Model.set p b = Ok p' → Model.set p' b = Ok p'.
Proof.
  unfold Model.set, col_name, col_price, col_availability. intros Hset.
  destruct (b !! "name") as [[| |?|?]|]; try done;
  destruct (b !! "price") as [[| |?|?]|]; try done;
  destruct (b !! "availability") as [[| |?|?]|]; try done;
  by inversion Hset; subst.
Qed.

(** X3: for an id that the database reads as an integer the key column
    can hold and under which no row is stored, the full update answers 404
    with an error payload, leaves the store as it was, issues no write call
    and sends no statement that writes. *)
Theorem updateProduct_absent_is_404 (w : World) (req : Request) (k : Z) :
  Text.integer (params_id req) = Some k →
  in_key_range k = true →
  rows (store w) !! k = None →
  (updateProduct req w).2
  = Ok (mkResponse 404 (Error "Producto no encontrado"))
  ∧ store (updateProduct req w).1 = store w
  ∧ writes (calls (updateProduct req w).1) = writes (calls w)
  ∧ sent (updateProduct req w).1 = sent w.
Proof.
  intros Hint Hrange Hr.
  assert (Hk : pk_of_param (params_id req) = Some k)
    by (by apply pk_of_param_spec).
  unfold updateProduct.
  rewrite (handler_not_found req k) by done.
  cbn [fst snd log store calls sent]. repeat split.
  apply writes_lookup.
Qed.

Lemma updateProduct_absent_is_404_witness :
  (updateProduct (mkRequest "2" monitor) one_monitor).2
  = Ok (mkResponse 404 (Error "Producto no encontrado"))
  ∧ store (updateProduct (mkRequest "2" monitor) one_monitor).1
    = store one_monitor
  ∧ writes (calls (updateProduct (mkRequest "2" monitor) one_monitor).1)
    = writes (calls one_monitor)
  ∧ sent (updateProduct (mkRequest "2" monitor) one_monitor).1
    = sent one_monitor.
Proof.
  apply (updateProduct_absent_is_404 one_monitor (mkRequest "2" monitor) 2);
    reflexivity.
Defined.

(** X4: on a stored product, a full update whose body gives a text name, a
    numeric price and a boolean availability answers 200 with exactly those
    three values under the id of the request, whatever else the body holds;
    the row is rewritten accordingly and every other row and the key
    sequence are left alone. *)
Theorem updateProduct_overwrites_from_body
    (w : World) (req : Request) (k : Z) (r : Row)
    (n : string) (x : Number) (a : bool) :
  pk_of_param (params_id req) = Some k →
  rows (store w) !! k = Some r →
  body req !! "name" = Some (JStr n) →
  body req !! "price" = Some (JNum x) →
  body req !! "availability" = Some (JBool a) →
  (updateProduct req w).2 = Ok (mkResponse 200 (Data (mkProduct k n x a)))
  ∧ rows (store (updateProduct req w).1) !! k = Some (mkRow n x a)
  ∧ (∀ j, j ≠ k →
       rows (store (updateProduct req w).1) !! j = rows (store w) !! j)
  ∧ seq (store (updateProduct req w).1) = seq (store w).
Proof.
  intros Hk Hr Hn Hx Ha.
  rewrite (updateProduct_found req k r (mkProduct k n x a));
    [|done|done|by apply (set_full_body (instance k r))].
  cbn [fst snd store rows seq]. repeat split.
  - apply lookup_insert_eq.
  - intros j Hj. by apply lookup_insert_ne.
Qed.

Lemma updateProduct_overwrites_from_body_witness :
  (updateProduct (mkRequest "1" curved_monitor) one_monitor).2
  = Ok (mkResponse 200 (Data (mkProduct 1 "Monitor curvo" (whole 299) false)))
  ∧ rows (store (updateProduct (mkRequest "1" curved_monitor) one_monitor).1)
      !! 1 = Some (mkRow "Monitor curvo" (whole 299) false).
Proof.
  destruct (updateProduct_overwrites_from_body one_monitor
              (mkRequest "1" curved_monitor) 1 (mkRow "Monitor" (whole 300) true)
              "Monitor curvo" (whole 299) false) as (Hout & Hrow & _);
    [reflexivity..|].
  split; [exact Hout|exact Hrow].
Defined.

(** X5: a field the body of a full update does not hold keeps its stored
    value in the record answered, and the row persisted is that record. *)
Theorem updateProduct_keeps_absent_fields
    (w : World) (req : Request) (k : Z) (r : Row) (st : Z) (p : Product) :
  pk_of_param (params_id req) = Some k →
  rows (store w) !! k = Some r →
  (updateProduct req w).2 = Ok (mkResponse st (Data p)) →
  (body req !! "name" = None → name p = row_name r)
  ∧ (body req !! "price" = None → price p = row_price r)
  ∧ (body req !! "availability" = None → availability p = row_availability r)
  ∧ rows (store (updateProduct req w).1) !! k = Some (row_of p).
Proof.
  intros Hk Hr Hout.
  destruct (Model.set (instance k r) (body req)) as [p'|e] eqn:Hset.
  - rewrite (updateProduct_found req k r p') in Hout |- * by done.
    cbn [fst snd store rows] in *. inversion Hout; subst.
    destruct (set_fields _ _ _ Hset) as (Hn & Hx & Ha & _).
    repeat split; [done|done|done|apply lookup_insert_eq].
  - by rewrite (updateProduct_rejected req k r e) in Hout.
Qed.

Lemma updateProduct_keeps_absent_fields_witness :
  (updateProduct mark_unavailable one_monitor).2
  = Ok (mkResponse 200 (Data (mkProduct 1 "Monitor" (whole 300) false)))
  ∧ rows (store (updateProduct mark_unavailable one_monitor).1) !! 1
    = Some (mkRow "Monitor" (whole 300) false).
Proof.
  split; [reflexivity|].
  destruct (updateProduct_keeps_absent_fields one_monitor mark_unavailable 1
              (mkRow "Monitor" (whole 300) true) 200
              (mkProduct 1 "Monitor" (whole 300) false))
    as (_ & _ & _ & Hrow); [reflexivity..|].
  exact Hrow.
Defined.

(** X6: the full update is idempotent: served a second time, the same
    request leaves the store as the first left it and gets the same
    answer. *)
Theorem updateProduct_idempotent (req : Request) (w : World) :
  store (updateProduct req (updateProduct req w).1).1
  = store (updateProduct req w).1
  ∧ (updateProduct req (updateProduct req w).1).2 = (updateProduct req w).2.
Proof.
  lookup_cases req w k r Hk Hr.
  - destruct (Model.set (instance k r) (body req)) as [p'|e] eqn:Hset.
    + pose proof (set_keeps_id _ _ _ Hset) as Hid. cbn in Hid.
      rewrite (updateProduct_found req k r p' w) by done. cbn [fst snd].
      rewrite (updateProduct_found req k (row_of p') p').
      * cbn [fst snd store rows seq]. by rewrite insert_insert_eq.
      * done.
      * cbn [store rows]. apply lookup_insert_eq.
      * rewrite <- Hid, instance_of_row. by apply set_idempotent in Hset.
    + rewrite (updateProduct_rejected req k r e w) by done. cbn [fst snd].
      by rewrite (updateProduct_rejected req k r e).
  - unfold updateProduct. rewrite (handler_not_found req k w) by done.
    cbn [fst snd]. by rewrite (handler_not_found req k).
  - unfold updateProduct. by rewrite !with_product_run, Hk.
Qed.

(** ** Create *)

Lemma build_key_in_range (b : gmap string Value) (k : Z) (r : Row) :
  Model.build b = Ok (Some k, r) → in_key_range k = true.
Proof.
  unfold Model.build, col_id. intros Hb.
  destruct (b !! "id") as [[|?|[|q| |]|?]|]; try done;
    try (repeat match type of Hb with
                | context [match ?x with _ => _ end] => destruct x
                end; done).
  destruct (integral q) as [k'|]; [|done].
  destruct (in_key_range k') eqn:Hrange; [|done].
  repeat match type of Hb with
         | context [match ?x with _ => _ end] => destruct x
         end; by inversion Hb; subst.
Qed.

Lemma createProduct_cases (req : Request) (w : World) :
  (∃ e, (createProduct req w).2 = Rejected e
        ∧ rows (store (createProduct req w).1) = rows (store w))
  ∨ (∃ k r o, (createProduct req w).2
              = Ok (mkResponse 201 (Data (instance k r)))
              ∧ Model.build (body req) = Ok (o, r)
              ∧ in_key_range k = true
              ∧ rows (store w) !! k = None
              ∧ rows (store (createProduct req w).1)
                = <[k := r]> (rows (store w))).
Proof.
  unfold createProduct. rewrite bind_run. unfold Model.create.
  destruct (Model.build (body req)) as [[[k|] r]|e] eqn:Hb;
    [| |left; by eexists].
  - unfold Model.insert_row. cbn [send log store rows].
    destruct (rows (store w) !! k) eqn:Hfree; [left; by eexists|].
    right. exists k, r, (Some k). by rewrite (build_key_in_range _ _ _ Hb).
  - rewrite bind_run. unfold Model.nextval, Model.insert_row.
    cbn [send log store rows seq calls sent].
    destruct (in_key_range (seq (store w) + 1)) eqn:Hrange;
      [|left; by eexists].
    cbn [store rows].
    destruct (rows (store w) !! (seq (store w) + 1)) eqn:Hfree;
      [left; by eexists|].
    right. by exists (seq (store w) + 1), r, None.
Qed.

(** X7: create never touches a row that is already stored; when it is
    rejected the table is as it was, and when it answers, it answers 201 with
    a record whose id was free and under which that record is the one row
    added. *)
Theorem createProduct_only_adds (req : Request) (w : World) :
  (∀ j r, rows (store w) !! j = Some r →
     rows (store (createProduct req w).1) !! j = Some r)
  ∧ (∀ e, (createProduct req w).2 = Rejected e →
       rows (store (createProduct req w).1) = rows (store w))
  ∧ (∀ resp, (createProduct req w).2 = Ok resp →
       ∃ p, resp = mkResponse 201 (Data p)
            ∧ rows (store w) !! id p = None
            ∧ rows (store (createProduct req w).1)
              = <[id p := row_of p]> (rows (store w))).
Proof.
  destruct (createProduct_cases req w)
    as [(e & Hout & Hrows)|(k & r & o & Hout & _ & _ & Hfree & Hrows)];
    rewrite Hout, Hrows; split; [|split| |split]; try done.
  - intros j r' Hj. rewrite lookup_insert_ne; [done|]. congruence.
  - intros resp [= <-]. exists (instance k r). cbn [id].
    split; [done|]. split; [done|]. by destruct r.
Qed.

(** X8: a product that create answered with is read back by get-by-id: the
    request for its id, written in decimal, is answered 200 with the very
    record of the 201. *)
Theorem create_then_get (req : Request) (w : World) (st : Z) (p : Product)
    (b : gmap string Value) :
  (createProduct req w).2 = Ok (mkResponse st (Data p)) →
  (getProductById (mkRequest (param_of_pk (id p)) b) (createProduct req w).1).2
  = Ok (mkResponse 200 (Data p)).
Proof.
  intros Hout.
  destruct (createProduct_cases req w)
    as [(e & Hout' & _)|(k & r & o & Hout' & _ & Hrange & _ & Hrows)];
    rewrite Hout' in Hout; [done|].
  inversion Hout; subst.
  rewrite (getProductById_found _ k r).
  - done.
  - by apply pk_of_param_of_pk.
  - rewrite Hrows. apply lookup_insert_eq.
Qed.

Lemma create_then_get_witness :
  (getProductById (mkRequest "1" ∅)
     (createProduct (mkRequest "" monitor) boot).1).2
  = Ok (mkResponse 200 (Data (mkProduct 1 "Monitor" (whole 300) true))).
Proof.
  apply (create_then_get (mkRequest "" monitor) boot 201
           (mkProduct 1 "Monitor" (whole 300) true) ∅).
  reflexivity.
Defined.

(** No handler stores a row under a key the column cannot hold, so a stored
    id is always one a path parameter can name. *)
Lemma handler_keeps_keys_in_range (e : Endpoint) (req : Request) (w : World) :
  keys_in_range w → keys_in_range (handler e req w).1.
Proof.
  intros Hw. destruct e; cbn [handler].
  - done.
  - unfold keys_in_range. by rewrite getProductById_store.
  - destruct (createProduct_cases req w)
      as [(err & _ & Hrows)|(k & r & o & _ & _ & Hrange & _ & Hrows)];
      unfold keys_in_range; rewrite Hrows; [done|].
    intros j. rewrite dom_insert_L, elem_of_union, elem_of_singleton.
    intros [->|Hj]; [done|by apply Hw].
  - unfold keys_in_range. by destruct (updateProduct_dom req w) as [-> _].
  - unfold keys_in_range. by destruct (updateAvailability_dom req w) as [-> _].
  - lookup_cases req w k r Hk Hr.
    + rewrite (deleteProduct_found req k r) by done.
      intros j. cbn [fst store rows]. rewrite dom_delete_L.
      intros Hj. apply elem_of_difference in Hj as [Hj _]. by apply Hw.
    + unfold deleteProduct. by rewrite (handler_not_found req k).
    + unfold deleteProduct. by rewrite with_product_run, Hk.
Qed.

(** ** The routes *)

Section RouteFacts.

Context `{Conversions}.

Lemma id_chain_result (req : Request) :
  run_chain req id_chain
  = if Validator.int (params_id req) then []
    else [mkFieldError "id" "ID no valido"].
Proof.
  unfold run_chain, select. cbn.
  by destruct (Validator.int (params_id req)).
Qed.

(** X9: on the routes that take only an id, a path parameter that is not an
    integer (an optional sign, then digits, leading zeroes included) is
    answered 400 with the one error [ID no valido] and the world
    is returned as received, the handler not being run; an integer parameter
    hands the request to the handler unchanged.  On the full-update route
    the same error comes first among the errors of the 400. *)
Theorem id_is_validated_before_the_handler (req : Request) (w : World) :
  (∀ e, e ∈ [GET_one; PATCH; DELETE] →
     router e req w
     = if Validator.int (params_id req) then handler e req w
       else (w, Ok (mkResponse 400
                      (Errors [mkFieldError "id" "ID no valido"]))))
  ∧ (Validator.int (params_id req) = false →
     ∃ es, router PUT req w
           = (w, Ok (mkResponse 400
                       (Errors (mkFieldError "id" "ID no valido" :: es))))).
Proof.
  split.
  - intros e He.
    assert (Hroute : ∀ h, route [id_chain] h req w
              = if Validator.int (params_id req) then h req w
                else (w, Ok (mkResponse 400
                               (Errors [mkFieldError "id" "ID no valido"])))).
    { intros h. unfold route, validationResult.
      rewrite bind_cons, id_chain_result. cbn.
      by destruct (Validator.int (params_id req)). }
    apply elem_of_cons in He as [->|He]; [apply Hroute|].
    apply elem_of_cons in He as [->|He]; [apply Hroute|].
    apply list_elem_of_singleton in He as ->. apply Hroute.
  - intros Hbad. eexists. unfold router, router_put, route, validationResult.
    rewrite bind_cons, id_chain_result, Hbad. cbn [app handleInputErrors].
    reflexivity.
Qed.

Lemma numeric_nonempty (s : string) :
  Validator.numeric s = true → Validator.nonempty s = true.
Proof. by destruct s. Qed.

(** X10: a create request without a price is answered 400 with, after the
    errors on the name, the messages of all three price rules in the order
    the chain declares them; the handler is not run. *)
Theorem missing_price_fails_every_price_rule (req : Request) (w : World) :
  body req !! "price" = None →
  router POST req w
  = (w, Ok (mkResponse 400
              (Errors (run_chain req name_chain
                       ++ [mkFieldError "price" "Valor no valido";
                           mkFieldError "price"
                             "El campo precio no puede estar vacio";
                           mkFieldError "price" "Precio no valido"])))).
Proof.
  intros Hp. unfold router, router_post, route, validationResult.
  rewrite !bind_cons.
  change ([] ≫= run_chain req) with (@nil FieldError). rewrite app_nil_r.
  assert (Hprice : run_chain req price_chain
            = [mkFieldError "price" "Valor no valido";
               mkFieldError "price" "El campo precio no puede estar vacio";
               mkFieldError "price" "Precio no valido"]).
  { unfold run_chain, select. cbn. by rewrite Hp. }
  rewrite Hprice. unfold handleInputErrors.
  by destruct (run_chain req name_chain).
Qed.

(** X11: a create request with a non-empty text name and a price that is a
    number above zero whose decimal writing is numeric passes validation:
    the route hands it to the create handler unchanged, whatever else the
    body holds. *)
Theorem valid_create_reaches_the_handler
    (req : Request) (w : World) (n : string) (x : Number) :
  body req !! "name" = Some (JStr n) →
  n ≠ "" →
  body req !! "price" = Some (JNum x) →
  gt_zero x = true →
  Validator.numeric (number_to_string x) = true →
  router POST req w = createProduct req w.
Proof.
  intros Hn Hne Hx Hgt Hnum.
  assert (Hstr : toString (Some (JNum x)) = number_to_string x)
    by (by destruct x).
  unfold router, router_post, route, validationResult.
  rewrite !bind_cons.
  change ([] ≫= run_chain req) with (@nil FieldError). rewrite app_nil_r.
  unfold run_chain, select. cbn [location path rules name_chain price_chain
                                 body_ passes predicate message].
  rewrite Hn, Hx, !filter_cons, !filter_nil.
  cbn [passes predicate]. rewrite Hstr, Hnum, (numeric_nonempty _ Hnum).
  cbn [greater_than_zero toString]. rewrite Hgt.
  assert (Hnonempty : Validator.nonempty n = true).
  { unfold Validator.nonempty. destruct (String.eqb_spec n ""); done. }
  rewrite Hnonempty. reflexivity.
Qed.

End RouteFacts.

Lemma valid_create_reaches_the_handler_witness :
  @router on_integers POST unavailable_monitor boot
  = createProduct unavailable_monitor boot.
Proof.
  apply (@valid_create_reaches_the_handler on_integers unavailable_monitor boot
           "Monitor" (whole 300)); try reflexivity.
  discriminate.
Defined.

Lemma missing_price_fails_every_price_rule_witness :
  @router on_integers POST (mkRequest "" {[ "name" := JStr "Monitor" ]}) boot
  = (boot, Ok (mkResponse 400
                 (Errors [mkFieldError "price" "Valor no valido";
                          mkFieldError "price"
                            "El campo precio no puede estar vacio";
                          mkFieldError "price" "Precio no valido"]))).
Proof.
  rewrite (@missing_price_fails_every_price_rule on_integers
             (mkRequest "" {[ "name" := JStr "Monitor" ]}) boot)
    by reflexivity.
  reflexivity.
Defined.

Lemma id_is_validated_before_the_handler_witness :
  @router on_integers GET_one (mkRequest "abc" ∅) one_monitor
  = (one_monitor,
     Ok (mkResponse 400 (Errors [mkFieldError "id" "ID no valido"])))
  ∧ (@router on_integers GET_one (mkRequest "01" ∅) one_monitor).2
    = Ok (mkResponse 200 (Data (mkProduct 1 "Monitor" (whole 300) true))).
Proof.
  split.
  - destruct (@id_is_validated_before_the_handler on_integers
                (mkRequest "abc" ∅) one_monitor) as [Hroute _].
    rewrite (Hroute GET_one) by (apply list_elem_of_In; simpl; auto).
    reflexivity.
  - destruct (@id_is_validated_before_the_handler on_integers
                (mkRequest "01" ∅) one_monitor) as [Hroute _].
    rewrite (Hroute GET_one) by (apply list_elem_of_In; simpl; auto).
    reflexivity.
Defined.

(** ** Deleting twice *)

(** X13: once a stored product is deleted, a second delete of the same id
    answers 404 and leaves the store as the first delete left it. *)
Theorem delete_twice_is_404 (w : World) (req req' : Request) (k : Z) (r : Row) :
  pk_of_param (params_id req) = Some k →
  pk_of_param (params_id req') = Some k →
  rows (store w) !! k = Some r →
  (deleteProduct req' (deleteProduct req w).1).2
  = Ok (mkResponse 404 (Error "Producto no encontrado"))
  ∧ store (deleteProduct req' (deleteProduct req w).1).1
    = store (deleteProduct req w).1.
Proof.
  intros Hk Hk' Hr. rewrite (deleteProduct_found req k r w) by done.
  cbn [fst]. unfold deleteProduct.
  rewrite (handler_not_found req' k); [done|done|].
  cbn [store rows]. apply lookup_delete_eq.
Qed.

Lemma delete_twice_is_404_witness :
  (deleteProduct (mkRequest "+1" ∅)
     (deleteProduct (mkRequest "1" ∅) one_monitor).1).2
  = Ok (mkResponse 404 (Error "Producto no encontrado")).
Proof.
  apply (delete_twice_is_404 one_monitor (mkRequest "1" ∅) (mkRequest "+1" ∅)
           1 (mkRow "Monitor" (whole 300) true)); reflexivity.
Defined.

(** ** Boot when the session opens *)

(** X14: when [authenticate] resolves, [connectDB] goes on to [sync] without
    waiting for it, logs nothing and returns normally; a [sync] that fails
    is therefore not caught: its rejection is left unhandled. *)
Theorem connectDB_does_not_await_sync (ses : Session) :
  authenticate_resolves ses = true →
  completion (connectDB ses) = Returned tt
  ∧ events (connectDB ses) = [Authenticate; Sync]
  ∧ unhandled (connectDB ses)
    = (if sync_resolves ses then [] else [connection_refused]).
Proof.
  intros Hok. unfold connectDB, try_catch, mbind, IO_bind.
  unfold await_db_authenticate, db_sync. cbn. rewrite Hok. cbn.
  by destruct (sync_resolves ses).
Qed.

Lemma connectDB_does_not_await_sync_witness :
  completion (connectDB (mkSession true false true)) = Returned tt
  ∧ events (connectDB (mkSession true false true)) = [Authenticate; Sync]
  ∧ unhandled (connectDB (mkSession true false true)) = [connection_refused].
Proof.
  apply (connectDB_does_not_await_sync (mkSession true false true)).
  reflexivity.
Defined.

(** ** CORS without configuration *)

(** X15: an environment value that is unset or empty admits no origin: when
    both are, the allow-list is empty and every request that carries an
    origin is rejected with [Error de CORS]. *)
Theorem cors_unconfigured_rejects_every_origin (env : Env) (o : option string) :
  truthy (FRONTEND_URL env) = false →
  truthy (API_URL env) = false →
  allowedOrigins env = []
  ∧ (truthy o = true → origin env o = Failed "Error de CORS").
Proof.
  intros Hf Ha.
  assert (Hnil : allowedOrigins env = []).
  { unfold allowedOrigins. rewrite !filter_cons, filter_nil.
    rewrite Hf, Ha. by repeat case_decide. }
  split; [done|]. intros Ho. unfold origin, includes.
  rewrite Hnil, Ho. cbn [negb orb]. case_bool_decide as Hin; [|done].
  by apply not_elem_of_nil in Hin.
Qed.

Lemma cors_unconfigured_rejects_every_origin_witness :
  allowedOrigins (mkEnv None (Some "")) = []
  ∧ origin (mkEnv None (Some "")) (Some "http://localhost:5173")
    = Failed "Error de CORS".
Proof.
  destruct (cors_unconfigured_rejects_every_origin (mkEnv None (Some ""))
              (Some "http://localhost:5173")) as [Hnil Hrej];
    [reflexivity..|].
  split; [exact Hnil|]. apply Hrej. reflexivity.
Defined.
